(** * Commercial paper lifecycle contract: a shallow embedding

    The development follows the two source files of the repository:
    - [lib/paper.js]: the [cpState] enumeration and the [CommercialPaper]
      class (an entity that extends the ledger [State] class);
    - the contract file: [CommercialPaperContract] with the transactions
      [purchase], [invoice], [issue], [confirm], [earlyPay], [acknowledge]
      and [pay].

    JavaScript objects are insertion-ordered property lists, method calls go
    through a per-class method table (so that calling a method the class
    does not define raises a TypeError, as at run time), transactions run
    in a state-and-exception monad over the ledger, and serialisation is
    concrete JSON text.  *)

From Stdlib Require Import ZArith String Ascii List Bool Lia.
From Stdlib Require Import Decimal DecimalFacts DecimalString DecimalPos DecimalN DecimalZ.
From stdpp Require Import base option strings gmap.

Import ListNotations.
Local Open Scope string_scope.
Local Open Scope Z_scope.
Set Warnings "-register-all".

(** ** JavaScript values *)

(** Byte strings.  A JavaScript string is modelled by its UTF-8 bytes, which
    is also the content of the [Buffer] made from it. *)
Abbreviation bytes := string (only parsing).

Inductive jsval : Type :=
| Undefined
| Null
| Bool (b : bool)
| Num (z : Z)                          (* integer-valued numbers *)
| Str (s : string)
| Arr (l : list jsval)
| Obj (l : list (string * jsval))      (* own properties, insertion order *)
| Buf (b : bytes).                     (* a Node.js Buffer *)

Abbreviation object := (list (string * jsval)) (only parsing).

(** Exceptions.  [Error] and [TypeError] are the JavaScript exceptions of
    those names with their message; [NotFound], [AlreadyExists] and
    [DecodeError] are the failures of the ledger collection and of the
    envelope named by the specification; [SyntaxError] is raised by
    [JSON.parse]; [Unmodelled] marks inputs outside the modelled fragment
    of the platform (non-integer number literals and the like). *)
Inductive exn : Type :=
| Error (msg : string)
| TypeError (msg : string)
| SyntaxError
| NotFound (key : string)
| AlreadyExists (key : string)
| DecodeError
| Unmodelled (what : string).

Inductive result (A : Type) : Type :=
| Ok (a : A)
| Throw (e : exn).
Arguments Ok {A} a.
Arguments Throw {A} e.

Definition rbind {A B} (r : result A) (k : A -> result B) : result B :=
  match r with
  | Ok a => k a
  | Throw e => Throw e
  end.

(** *** Property access *)

(** [o[k]]: the value of property [k], [Undefined] when absent. *)
Fixpoint get (o : object) (k : string) : jsval :=
  match o with
  | [] => Undefined
  | (k', v) :: o' => if String.eqb k' k then v else get o' k
  end.

Fixpoint has (o : object) (k : string) : bool :=
  match o with
  | [] => false
  | (k', _) :: o' => if String.eqb k' k then true else has o' k
  end.

(** [o[k] = v]: overwrite in place, or append a new property.  Property
    names are ordinary names, as those of the entity are: an array index,
    which JavaScript lists before the other properties, and [__proto__],
    which an assignment hands to the prototype instead of creating a
    property, are outside the model. *)
Fixpoint set (o : object) (k : string) (v : jsval) : object :=
  match o with
  | [] => [(k, v)]
  | (k', v') :: o' =>
      if String.eqb k' k then (k', v) :: o' else (k', v') :: set o' k v
  end.

(** [Object.assign(target, source)]: the properties of the source are
    assigned to the target one after the other (ordinary names, as for
    [set]). *)
Definition Object_assign (target source : object) : object :=
  fold_left (fun t kv => set t (fst kv) (snd kv)) source target.

(** *** Conversions *)

(** Decimal rendering of an integer-valued number. *)
Definition dec (z : Z) : string := NilEmpty.string_of_int (Z.to_int z).

Fixpoint join (sep : string) (l : list string) : string :=
  match l with
  | [] => ""
  | [x] => x
  | x :: l' => x +:+ sep +:+ join sep l'
  end.

(** [String(v)], as used by string concatenation with [+]. *)
Fixpoint ToString (v : jsval) : string :=
  match v with
  | Undefined => "undefined"
  | Null => "null"
  | Bool true => "true"
  | Bool false => "false"
  | Num z => dec z
  | Str s => s
  | Arr l =>
      join "," (map (fun x => match x with
                              | Undefined | Null => ""
                              | _ => ToString x
                              end) l)
  | Obj _ => "[object Object]"
  | Buf b => b
  end.

(** [a === b] where at least one side is a primitive (objects, arrays and
    buffers are compared by identity, and are never identical to a
    primitive). *)
Definition strict_eq (a b : jsval) : bool :=
  match a, b with
  | Undefined, Undefined => true
  | Null, Null => true
  | Bool x, Bool y => Bool.eqb x y
  | Num x, Num y => Z.eqb x y
  | Str x, Str y => String.eqb x y
  | _, _ => false
  end.

(** Truthiness, as tested by [if (v)]. *)
Definition truthy (v : jsval) : bool :=
  match v with
  | Undefined | Null => false
  | Bool b => b
  | Num z => negb (Z.eqb z 0)
  | Str s => negb (String.eqb s "")
  | Arr _ | Obj _ | Buf _ => true
  end.

(** ** JSON text *)

(** The double-quote character and a few other delimiters. *)
Definition DQ : ascii := "034"%char.
Definition BS : ascii := "092"%char.
Definition dq : string := String DQ "".
Definition bs : string := String BS "".

(** *** [JSON.stringify] *)

Definition hex_digit (n : N) : ascii :=
  if (n <? 10)%N then ascii_of_N (48 + n) else ascii_of_N (87 + n).

(** The escape of one character inside a JSON string literal. *)
Definition escape_char (c : ascii) : string :=
  if Ascii.eqb c DQ then String BS dq
  else if Ascii.eqb c BS then String BS bs
  else if Ascii.eqb c "008" then String BS "b"
  else if Ascii.eqb c "012" then String BS "f"
  else if Ascii.eqb c "010" then String BS "n"
  else if Ascii.eqb c "013" then String BS "r"
  else if Ascii.eqb c "009" then String BS "t"
  else if (N_of_ascii c <? 32)%N then
    String BS (String "u" (String "0" (String "0"
      (String (hex_digit (N_of_ascii c / 16))
         (String (hex_digit (N_of_ascii c mod 16)) "")))))
  else String c "".

Fixpoint escape (s : string) : string :=
  match s with
  | EmptyString => ""
  | String c s' => escape_char c +:+ escape s'
  end.

Definition quote (s : string) : string := String DQ (escape s +:+ dq).

(** [JSON.stringify(v)]; [None] stands for the result [undefined], and a
    property whose value serialises to [undefined] is left out.  A Buffer
    is serialised through its [toJSON], an object with the properties
    [type] and [data]. *)
Fixpoint stringify (v : jsval) : option string :=
  match v with
  | Undefined => None
  | Null => Some "null"
  | Bool true => Some "true"
  | Bool false => Some "false"
  | Num z => Some (dec z)
  | Str s => Some (quote s)
  | Arr l =>
      Some ("[" +:+ join "," (map (fun x => match stringify x with
                                             | Some t => t
                                             | None => "null"
                                             end) l) +:+ "]")
  | Obj l =>
      let fix members (l : list (string * jsval)) : list string :=
        match l with
        | [] => []
        | (k, x) :: l' =>
            match stringify x with
            | Some t => (quote k +:+ ":" +:+ t) :: members l'
            | None => members l'
            end
        end in
      Some ("{" +:+ join "," (members l) +:+ "}")
  | Buf b =>
      Some ("{" +:+ quote "type" +:+ ":" +:+ quote "Buffer" +:+ "," +:+
            quote "data" +:+ ":[" +:+
            join "," (map (fun c => dec (Z.of_N (N_of_ascii c)))
                          (list_ascii_of_string b)) +:+ "]}")
  end.

(** [JSON.stringify] applied to an object (never [undefined]). *)
Definition JSON_stringify (o : object) : string :=
  match stringify (Obj o) with
  | Some t => t
  | None => ""
  end.

(** The texts of the members of an object, as [stringify] lists them. *)
Fixpoint member_texts (l : object) : list string :=
  match l with
  | [] => []
  | (k, x) :: l' =>
      match stringify x with
      | Some t => (quote k +:+ ":" +:+ t) :: member_texts l'
      | None => member_texts l'
      end
  end.

(** *** [JSON.parse] *)

Definition is_ws (c : ascii) : bool :=
  Ascii.eqb c " " || Ascii.eqb c "009" || Ascii.eqb c "010" || Ascii.eqb c "013".

Fixpoint skip_ws (s : string) : string :=
  match s with
  | String c s' => if is_ws c then skip_ws s' else s
  | EmptyString => s
  end.

Definition is_digit (c : ascii) : bool :=
  (48 <=? N_of_ascii c)%N && (N_of_ascii c <=? 57)%N.

(** The longest prefix of digits, and what follows it. *)
Fixpoint span_digits (s : string) : string * string :=
  match s with
  | String c s' =>
      if is_digit c then
        let (ds, rest) := span_digits s' in (String c ds, rest)
      else ("", s)
  | EmptyString => ("", s)
  end.

Definition hex_val (c : ascii) : option N :=
  let n := N_of_ascii c in
  if (48 <=? n)%N && (n <=? 57)%N then Some (n - 48)%N
  else if (97 <=? n)%N && (n <=? 102)%N then Some (n - 87)%N
  else if (65 <=? n)%N && (n <=? 70)%N then Some (n - 55)%N
  else None.

(** The character denoted by a one-letter escape. *)
Definition unescape (e : ascii) : option ascii :=
  if Ascii.eqb e DQ then Some DQ
  else if Ascii.eqb e BS then Some BS
  else if Ascii.eqb e "/" then Some "/"%char
  else if Ascii.eqb e "b" then Some "008"%char
  else if Ascii.eqb e "f" then Some "012"%char
  else if Ascii.eqb e "n" then Some "010"%char
  else if Ascii.eqb e "r" then Some "013"%char
  else if Ascii.eqb e "t" then Some "009"%char
  else None.

Definition cons_char (c : ascii) (r : result (string * string))
  : result (string * string) :=
  rbind r (fun p => Ok (String c (fst p), snd p)).

(** The characters of a string literal after its opening quote, up to the
    closing quote; returns the denoted string and the rest of the input.
    A [\u] escape above the ASCII range would need UTF-8 encoding and is
    left out of the model. *)
Fixpoint parse_chars (s : string) : result (string * string) :=
  match s with
  | EmptyString => Throw SyntaxError
  | String c s' =>
      if Ascii.eqb c DQ then Ok ("", s')
      else if Ascii.eqb c BS then
        match s' with
        | EmptyString => Throw SyntaxError
        | String e s'' =>
            match unescape e with
            | Some ch => cons_char ch (parse_chars s'')
            | None =>
                if Ascii.eqb e "u" then
                  match s'' with
                  | String h1 (String h2 (String h3 (String h4 s3))) =>
                      match hex_val h1, hex_val h2, hex_val h3, hex_val h4 with
                      | Some a, Some b, Some c, Some d =>
                          let n := (((a * 16 + b) * 16 + c) * 16 + d)%N in
                          if (n <? 128)%N
                          then cons_char (ascii_of_N n) (parse_chars s3)
                          else Throw (Unmodelled "non-ASCII unicode escape")
                      | _, _, _, _ => Throw SyntaxError
                      end
                  | _ => Throw SyntaxError
                  end
                else Throw SyntaxError
            end
        end
      else if (N_of_ascii c <? 32)%N then Throw SyntaxError
      else cons_char c (parse_chars s')
  end.

(** The digits of an integer literal, without a superfluous leading zero;
    [neg] tells whether a minus sign came before.  A fraction or an
    exponent is left out of the model. *)
Definition parse_digits (neg : bool) (s : string) : result (jsval * string) :=
  let (ds, rest) := span_digits s in
  match ds, NilEmpty.uint_of_string ds with
  | String _ _, Some d =>
      if uint_eq_dec (unorm d) d then
        match rest with
        | String c _ =>
            if Ascii.eqb c "." || Ascii.eqb c "e" || Ascii.eqb c "E"
            then Throw (Unmodelled "non-integer number literal")
            else Ok (Num (if neg then - Z.of_uint d else Z.of_uint d), rest)
        | EmptyString =>
            Ok (Num (if neg then - Z.of_uint d else Z.of_uint d), rest)
        end
      else Throw SyntaxError
  | _, _ => Throw SyntaxError
  end.

(** An integer literal: an optional minus sign, then the digits. *)
Definition parse_number (s : string) : result (jsval * string) :=
  match s with
  | String "-" s' => parse_digits true s'
  | _ => parse_digits false s
  end.

(** [strip_prefix p s]: what follows [p] in [s], when [s] starts with [p]. *)
Fixpoint strip_prefix (p s : string) : option string :=
  match p, s with
  | EmptyString, _ => Some s
  | String a p', String b s' => if Ascii.eqb a b then strip_prefix p' s' else None
  | _, _ => None
  end.

Definition parse_literal (lit : string) (v : jsval) (s : string)
  : result (jsval * string) :=
  match strip_prefix lit s with
  | Some rest => Ok (v, rest)
  | None => Throw SyntaxError
  end.

(** Recursive descent; [fuel] bounds the nesting depth and the number of
    members of each array or object, and the length of the text is always
    enough.  A repeated key keeps its first position and its last value. *)
Fixpoint parse_value (fuel : nat) (s : string) : result (jsval * string) :=
  match fuel with
  | O => Throw (Unmodelled "out of fuel")
  | S fuel' =>
      match skip_ws s with
      | EmptyString => Throw SyntaxError
      | String c s' =>
          if Ascii.eqb c "{" then
            match skip_ws s' with
            | String "}" rest => Ok (Obj [], rest)
            | _ => parse_members fuel' [] s'
            end
          else if Ascii.eqb c "[" then
            match skip_ws s' with
            | String "]" rest => Ok (Arr [], rest)
            | _ => parse_elements fuel' [] s'
            end
          else if Ascii.eqb c DQ then
            rbind (parse_chars s') (fun p => Ok (Str (fst p), snd p))
          else if Ascii.eqb c "-" || is_digit c then parse_number (String c s')
          else if Ascii.eqb c "t" then parse_literal "true" (Bool true) (String c s')
          else if Ascii.eqb c "f" then parse_literal "false" (Bool false) (String c s')
          else if Ascii.eqb c "n" then parse_literal "null" Null (String c s')
          else Throw SyntaxError
      end
  end
with parse_members (fuel : nat) (acc : object) (s : string)
  : result (jsval * string) :=
  match fuel with
  | O => Throw (Unmodelled "out of fuel")
  | S fuel' =>
      match skip_ws s with
      | String c s1 =>
          if Ascii.eqb c DQ then
            rbind (parse_chars s1) (fun ks =>
              match skip_ws (snd ks) with
              | String ":" s3 =>
                  rbind (parse_value fuel' s3) (fun vs =>
                    match skip_ws (snd vs) with
                    | String "," s5 =>
                        parse_members fuel' (set acc (fst ks) (fst vs)) s5
                    | String "}" s5 =>
                        Ok (Obj (set acc (fst ks) (fst vs)), s5)
                    | _ => Throw SyntaxError
                    end)
              | _ => Throw SyntaxError
              end)
          else Throw SyntaxError
      | EmptyString => Throw SyntaxError
      end
  end
with parse_elements (fuel : nat) (acc : list jsval) (s : string)
  : result (jsval * string) :=
  match fuel with
  | O => Throw (Unmodelled "out of fuel")
  | S fuel' =>
      rbind (parse_value fuel' s) (fun vs =>
        match skip_ws (snd vs) with
        | String "," s' => parse_elements fuel' (acc ++ [fst vs]) s'
        | String "]" s' => Ok (Arr (acc ++ [fst vs]), s')
        | _ => Throw SyntaxError
        end)
  end.

(** [JSON.parse(text)]: one value, then nothing but white space. *)
Definition JSON_parse (text : string) : result jsval :=
  rbind (parse_value (S (String.length text)) text) (fun vs =>
    match skip_ws (snd vs) with
    | EmptyString => Ok (fst vs)
    | _ => Throw SyntaxError
    end).

(** ** Buffers *)

(** [ToUint8] of an array element; strings and objects would need
    [ToNumber] and are left out of the model. *)
Definition toUint8 (v : jsval) : result ascii :=
  match v with
  | Num z => Ok (ascii_of_N (Z.to_N (z mod 256)))
  | Undefined | Null | Bool false => Ok (ascii_of_N 0)
  | Bool true => Ok (ascii_of_N 1)
  | _ => Throw (Unmodelled "ToNumber of a non-number array element")
  end.

Fixpoint fromArrayLike (l : list jsval) : result bytes :=
  match l with
  | [] => Ok ""
  | v :: l' =>
      rbind (toUint8 v) (fun c =>
      rbind (fromArrayLike l') (fun b => Ok (String c b)))
  end.

(** The error [Buffer.from] raises for a value it cannot make a buffer of. *)
Definition ERR_INVALID_ARG_TYPE : exn :=
  TypeError "The first argument must be of type string or an instance of Buffer, ArrayBuffer, or Array or an Array-like Object.".

(** [Buffer.from(value)].  A string gives its bytes, a buffer a copy, an
    array its elements as bytes.  A plain object is accepted only when it
    is array-like (has a [length], left out of the model) or is the JSON
    form of a buffer (property [type] is the string Buffer and [data] an
    array); anything else raises a TypeError. *)
Definition Buffer_from (v : jsval) : result bytes :=
  match v with
  | Str s => Ok s
  | Buf b => Ok b
  | Arr l => fromArrayLike l
  | Obj o =>
      if negb (strict_eq (get o "length") Undefined)
      then Throw (Unmodelled "array-like object")
      else if strict_eq (get o "type") (Str "Buffer") then
        match get o "data" with
        | Arr l => fromArrayLike l
        | _ => Throw ERR_INVALID_ARG_TYPE
        end
      else Throw ERR_INVALID_ARG_TYPE
  | _ => Throw ERR_INVALID_ARG_TYPE
  end.

(** ** Classes and method calls *)

(** A method receives [this] and the arguments, and returns the (possibly
    mutated) receiver together with the returned value. *)
Definition method : Type := object -> list jsval -> object * jsval.

Definition arg (n : nat) (args : list jsval) : jsval := nth n args Undefined.

Fixpoint find_method (name : string) (table : list (string * method))
  : option method :=
  match table with
  | [] => None
  | (n, m) :: table' => if String.eqb n name then Some m else find_method name table'
  end.

(** [recv.name(args)] on an instance whose class has the method table
    [table]: a name the class does not define is [undefined], and calling
    it raises a TypeError. *)
Definition call (table : list (string * method)) (recv : string)
    (this : object) (name : string) (args : list jsval)
  : result (object * jsval) :=
  match find_method name table with
  | Some m => Ok (m this args)
  | None => Throw (TypeError (recv +:+ "." +:+ name +:+ " is not a function"))
  end.

(** A method that only reads, and one that only mutates. *)
Definition reader (f : object -> jsval) : method := fun this _ => (this, f this).
Definition mutator (f : object -> object) : method := fun this _ => (f this, Undefined).
Definition mutator1 (f : object -> jsval -> object) : method :=
  fun this args => (f this (arg 0 args), Undefined).

(** ** [ledger-api/state.js]: the ledger state base class *)

Module State.

(** Modelled from the spec: [ledger-api/state.js] is not among the source
    files.  The Key Codec joins the components, each rendered as a string,
    with a reserved separator character.  A numeric component, which is a
    number or a numeric string (decimal digits, after an optional minus
    sign), is rendered in the canonical decimal form of its value, so that
    leading zeros and the choice between a number and a string make no
    difference; any other component is a text and is rendered as given. *)
Definition separator : string := ":".

(** Modelled from the spec: the value of a numeric string. *)
Definition numeric (s : string) : option Z :=
  match NilEmpty.int_of_string s with
  | None => None
  | Some (Decimal.Pos Decimal.Nil) | Some (Decimal.Neg Decimal.Nil) => None
  | Some d => Some (Z.of_int d)
  end.

(** Modelled from the spec: what a component stands for. *)
Inductive component : Type :=
| Number (z : Z)
| Text (s : string).

Definition component_of (part : jsval) : option component :=
  match part with
  | Num z => Some (Number z)
  | Str s =>
      Some (match numeric s with
            | Some z => Number z
            | None => Text s
            end)
  | _ => None
  end.

Definition render (part : jsval) : string :=
  match component_of part with
  | Some (Number z) => dec z
  | Some (Text s) => s
  | None => ToString part
  end.

Definition makeKey (keyParts : list jsval) : string :=
  join separator (map render keyParts).

(** Modelled from the spec: the constructor of the missing base class.  The
    Entity Envelope carries the type tag next to the payload; the key is
    derived from the key parts by [makeKey] where the ledger needs it. *)
Definition new (stateClass : string) (keyParts : list jsval) : object :=
  [("class", Str stateClass)].

(** Modelled from the spec: the accessor of the missing base class that the
    contract calls to report the current state of an entity. *)
Definition getCurrentState (this : object) : jsval := get this "currentState".

Definition getClass (this : object) : jsval := get this "class".

(** Modelled from the spec: unwrap of the Entity Envelope, missing with the
    base class.  It fails with a decoding error when the text is not an
    object, or the tag is absent, malformed or not the expected one;
    otherwise the fields are handed to the constructor of the class. *)
Definition deserializeClass (data : bytes) (expectedTag : string)
    (ctor : object -> object) : result object :=
  match JSON_parse data with
  | Ok (Obj json) =>
      if strict_eq (get json "class") (Str expectedTag)
      then Ok (ctor json)
      else Throw DecodeError
  | Ok _ => Throw DecodeError
  | Throw (Unmodelled w) => Throw (Unmodelled w)
  | Throw _ => Throw DecodeError
  end.

(** The instance methods a subclass inherits.  The base class is generic:
    it has no method about a particular lifecycle state. *)
Definition methods : list (string * method) :=
  [ ("getClass", reader getClass);
    ("getCurrentState", reader getCurrentState) ].

End State.

(** ** [lib/paper.js] *)

(** Enumerate commercial paper state values *)
Definition cpState : object :=
  [ ("PURCHASE", Num 1);
    ("INVOICE", Num 2);
    ("ISSUE", Num 3);
    ("CONFIRM", Num 4);
    ("DEPOSIT", Num 5);
    ("APPROVE", Num 6);
    ("PAY", Num 7) ].

Module CommercialPaper.

Definition getClass : string := "org.papernet.commercialpaper".

(** [constructor(obj)] *)
Definition new (obj : object) : object :=
  Object_assign (State.new getClass [get obj "issuer"; get obj "paperNumber"]) obj.

(** Basic getters and setters *)
Definition getIssuer (this : object) : jsval := get this "issuer".
Definition setIssuer (this : object) (newIssuer : jsval) : object :=
  set this "issuer" newIssuer.
Definition getOwner (this : object) : jsval := get this "owner".
Definition setOwner (this : object) (newOwner : jsval) : object :=
  set this "owner" newOwner.

(** Useful methods to encapsulate commercial paper states *)
Definition setPurchase (this : object) : object :=
  set this "currentState" (get cpState "PURCHASE").
Definition setInvoice (this : object) : object :=
  set this "currentState" (get cpState "INVOICE").
Definition setIssue (this : object) : object :=
  set this "currentState" (get cpState "ISSUE").
Definition setConfirm (this : object) : object :=
  set this "currentState" (get cpState "CONFIRM").
Definition setDeposit (this : object) : object :=
  set this "currentState" (get cpState "DEPOSIT").
Definition setApprove (this : object) : object :=
  set this "currentState" (get cpState "APPROVE").
Definition setPay (this : object) : object :=
  set this "currentState" (get cpState "PAY").
Definition isPurchase (this : object) : jsval :=
  Bool (strict_eq (get this "currentState") (get cpState "PURCHASE")).
Definition isInvoice (this : object) : jsval :=
  Bool (strict_eq (get this "currentState") (get cpState "INVOICE")).
Definition isIssue (this : object) : jsval :=
  Bool (strict_eq (get this "currentState") (get cpState "ISSUE")).
Definition isConfirm (this : object) : jsval :=
  Bool (strict_eq (get this "currentState") (get cpState "CONFIRM")).
Definition isDeposit (this : object) : jsval :=
  Bool (strict_eq (get this "currentState") (get cpState "DEPOSIT")).
Definition isApprove (this : object) : jsval :=
  Bool (strict_eq (get this "currentState") (get cpState "APPROVE")).
Definition isPay (this : object) : jsval :=
  Bool (strict_eq (get this "currentState") (get cpState "PAY")).

(** [toBuffer()]: the bytes of the JSON text of the instance. *)
Definition toBuffer (this : object) : jsval := Buf (JSON_stringify this).

(** Deserialize a state data to commercial paper *)
Definition deserialize (data : bytes) : result object :=
  State.deserializeClass data getClass new.

(** [fromBuffer(buffer)]: the text is parsed first, a buffer is made from
    the parsed value, and that buffer is deserialized. *)
Definition fromBuffer (buffer : bytes) : result object :=
  rbind (JSON_parse buffer) (fun v =>
  rbind (Buffer_from v) deserialize).

(** Factory method to create a commercial paper object *)
Definition createInstance (issuer paperNumber issueDateTime maturityDateTime
    faceValue : jsval) : object :=
  new [ ("issuer", issuer); ("paperNumber", paperNumber);
        ("issueDateTime", issueDateTime);
        ("maturityDateTime", maturityDateTime);
        ("faceValue", faceValue) ].

(** The instance methods of the class, then those it inherits. *)
Definition methods : list (string * method) :=
  [ ("getIssuer", reader getIssuer);
    ("setIssuer", mutator1 setIssuer);
    ("getOwner", reader getOwner);
    ("setOwner", mutator1 setOwner);
    ("setPurchase", mutator setPurchase);
    ("setInvoice", mutator setInvoice);
    ("setIssue", mutator setIssue);
    ("setConfirm", mutator setConfirm);
    ("setDeposit", mutator setDeposit);
    ("setApprove", mutator setApprove);
    ("setPay", mutator setPay);
    ("isPurchase", reader isPurchase);
    ("isInvoice", reader isInvoice);
    ("isIssue", reader isIssue);
    ("isConfirm", reader isConfirm);
    ("isDeposit", reader isDeposit);
    ("isApprove", reader isApprove);
    ("isPay", reader isPay);
    ("toBuffer", reader toBuffer) ]
  ++ State.methods.

End CommercialPaper.

(** ** The ledger collection and the transaction monad *)

(** What a transaction does that can be observed from outside its body, in
    order: the calls on the ledger collection, and the methods of the
    entity class it runs on the paper in hand. *)
Inductive Call : Type :=
| GetPaper (key : string)
| AddPaper (paper : object)
| UpdatePaper (paper : object)
| Invoke (name : string).

(** The state a transaction runs against: the world state, one entity per
    key, and the calls made so far. *)
Record Ledger : Type := mkLedger {
  world : gmap string (list (string * jsval));
  calls : list Call
}.

(** A transaction body: it reads and writes the ledger and either returns
    a value or throws. *)
Definition M (A : Type) : Type := Ledger -> result A * Ledger.

#[export] Instance M_ret : MRet M := fun A a l => (Ok a, l).
#[export] Instance M_bind : MBind M := fun A B k m l =>
  match m l with
  | (Ok a, l') => k a l'
  | (Throw e, l') => (Throw e, l')
  end.

Definition throw {A} (e : exn) : M A := fun l => (Throw e, l).

Definition record (c : Call) (l : Ledger) : Ledger :=
  mkLedger (world l) (calls l ++ [c]).

Definition logged (cs : list Call) (l : Ledger) : Ledger :=
  mkLedger (world l) (calls l ++ cs).

Module PaperList.

(** Modelled from the spec: [paperlist.js] is not among the source files.
    The derived key of an entity is the key of its identifying fields. *)
Definition keyOf (paper : object) : string :=
  State.makeKey [get paper "issuer"; get paper "paperNumber"].

(** Modelled from the spec: read by key, NotFound when no record exists. *)
Definition getPaper (key : string) : M object := fun l =>
  match world l !! key with
  | Some paper => (Ok paper, record (GetPaper key) l)
  | None => (Throw (NotFound key), record (GetPaper key) l)
  end.

(** Modelled from the spec: create, AlreadyExists when a record exists at
    the derived key of the entity. *)
Definition addPaper (paper : object) : M unit := fun l =>
  match world l !! keyOf paper with
  | Some _ => (Throw (AlreadyExists (keyOf paper)), record (AddPaper paper) l)
  | None =>
      (Ok tt, mkLedger (<[keyOf paper := paper]> (world l))
                       (calls l ++ [AddPaper paper]))
  end.

(** Modelled from the spec: update, NotFound when no record exists at the
    derived key of the entity; it never creates. *)
Definition updatePaper (paper : object) : M unit := fun l =>
  match world l !! keyOf paper with
  | Some _ =>
      (Ok tt, mkLedger (<[keyOf paper := paper]> (world l))
                       (calls l ++ [UpdatePaper paper]))
  | None => (Throw (NotFound (keyOf paper)), record (UpdatePaper paper) l)
  end.

End PaperList.

(** ** The contract *)

Module CommercialPaperContract.

(** [paper.name(args)] inside a transaction: the method is looked up, and
    when the class defines it, it is run and the call is recorded. *)
Definition invoke (paper : object) (name : string) (args : list jsval)
  : M (object * jsval) := fun l =>
  match call CommercialPaper.methods "paper" paper name args with
  | Ok r => (Ok r, record (Invoke name) l)
  | Throw e => (Throw e, l)
  end.

(** [CommercialPaper.makeKey]: the static method inherited from [State]. *)
Definition makeKey : list jsval -> string := State.makeKey.

(** Purchase commercial paper *)
Definition purchase (issuer : string) (paperNumber : Z)
    (newOwner issueDateTime maturityDateTime : string) (faceValue : Z)
  : M jsval :=
  (* create an instance of the paper *)
  let paper := CommercialPaper.createInstance (Str issuer) (Num paperNumber)
                 (Str issueDateTime) (Str maturityDateTime) (Num faceValue) in
  '(paper, _) ← invoke paper "setPurchase" [];
  '(paper, _) ← invoke paper "setOwner" [Str newOwner];
  (* Add the paper to the list of all similar commercial papers *)
  PaperList.addPaper paper;;
  (* Must return a serialized paper to caller of smart contract *)
  '(_, buffer) ← invoke paper "toBuffer" [];
  mret buffer.

(** Invoice commercial paper *)
Definition invoice (issuer : string) (paperNumber : Z)
    (currentOwner newOwner : string) (invoice : Z) (invoiceDateTime : string)
  : M jsval :=
  (* Retrieve the current paper using key fields provided *)
  let paperKey := makeKey [Str issuer; Num paperNumber] in
  paper ← PaperList.getPaper paperKey;
  (* Validate current owner *)
  '(paper, owner) ← invoke paper "getOwner" [];
  if negb (strict_eq owner (Str currentOwner)) then
    throw (Error ("Paper " +:+ issuer +:+ dec paperNumber +:+
                  " is not owned by " +:+ currentOwner))
  else
  (* First buy moves state from ISSUED to INVOICE *)
  '(paper, c) ← invoke paper "isPurchase" [];
  '(paper, _) ← (if truthy c then invoke paper "setInvoice" []
                 else mret (paper, Undefined));
  (* Check paper is not already INVOICE *)
  '(paper, c) ← invoke paper "isInvoice" [];
  '(paper, _) ← (if truthy c then invoke paper "setOwner" [Str newOwner]
                 else
                   '(_, state) ← invoke paper "getCurrentState" [];
                   throw (Error ("Paper " +:+ issuer +:+ dec paperNumber +:+
                                 " is not invoiced. Current state = " +:+
                                 ToString state)));
  (* Update the paper *)
  PaperList.updatePaper paper;;
  '(_, buffer) ← invoke paper "toBuffer" [];
  mret buffer.

(** Issue commercial paper *)
Definition issue (issuer : string) (paperNumber : Z)
    (currentOwner newOwner : string) (issue : Z) (issueDateTime : string)
  : M jsval :=
  (* Retrieve the current paper using key fields provided *)
  let paperKey := makeKey [Str issuer; Num paperNumber] in
  paper ← PaperList.getPaper paperKey;
  (* Validate current owner *)
  '(paper, owner) ← invoke paper "getOwner" [];
  if negb (strict_eq owner (Str currentOwner)) then
    throw (Error ("Paper " +:+ issuer +:+ dec paperNumber +:+
                  " is not owned by " +:+ currentOwner))
  else
  (* First buy moves state from INVOICE to ISSUE *)
  '(paper, c) ← invoke paper "isInvoice" [];
  '(paper, _) ← (if truthy c then invoke paper "setIssue" []
                 else mret (paper, Undefined));
  (* Check paper is not already ISSUE *)
  '(paper, c) ← invoke paper "isIssue" [];
  '(paper, _) ← (if truthy c then invoke paper "setOwner" [Str newOwner]
                 else
                   '(_, state) ← invoke paper "getCurrentState" [];
                   throw (Error ("Paper " +:+ issuer +:+ dec paperNumber +:+
                                 " is not issued. Current state = " +:+
                                 ToString state)));
  (* Update the paper *)
  PaperList.updatePaper paper;;
  '(_, buffer) ← invoke paper "toBuffer" [];
  mret buffer.

(** Confirm commercial paper *)
Definition confirm (issuer : string) (paperNumber : Z)
    (currentOwner newOwner : string) (confirm : Z) (confirmDateTime : string)
  : M jsval :=
  (* Retrieve the current paper using key fields provided *)
  let paperKey := makeKey [Str issuer; Num paperNumber] in
  paper ← PaperList.getPaper paperKey;
  (* Validate current owner *)
  '(paper, owner) ← invoke paper "getOwner" [];
  if negb (strict_eq owner (Str currentOwner)) then
    throw (Error ("Paper " +:+ issuer +:+ dec paperNumber +:+
                  " is not owned by " +:+ currentOwner))
  else
  (* First buy moves state from ISSUE to CONFIRM *)
  '(paper, c) ← invoke paper "isIssue" [];
  '(paper, _) ← (if truthy c then invoke paper "setConfirm" []
                 else mret (paper, Undefined));
  (* Check paper is not already CONFIRM *)
  '(paper, c) ← invoke paper "isConfirm" [];
  '(paper, _) ← (if truthy c then invoke paper "setOwner" [Str newOwner]
                 else
                   '(_, state) ← invoke paper "getCurrentState" [];
                   throw (Error ("Paper " +:+ issuer +:+ dec paperNumber +:+
                                 " is not confirmed. Current state = " +:+
                                 ToString state)));
  (* Update the paper *)
  PaperList.updatePaper paper;;
  '(_, buffer) ← invoke paper "toBuffer" [];
  mret buffer.

(** Early Pay commercial paper *)
Definition earlyPay (issuer : string) (paperNumber : Z)
    (currentOwner newOwner : string) (earlyPay : Z) (earlyPayDateTime : string)
  : M jsval :=
  (* Retrieve the current paper using key fields provided *)
  let paperKey := makeKey [Str issuer; Num paperNumber] in
  paper ← PaperList.getPaper paperKey;
  (* Validate current owner *)
  '(paper, owner) ← invoke paper "getOwner" [];
  if negb (strict_eq owner (Str currentOwner)) then
    throw (Error ("Paper " +:+ issuer +:+ dec paperNumber +:+
                  " is not owned by " +:+ currentOwner))
  else
  (* First buy moves state from CONFIRM to EARLYPAY *)
  '(paper, c) ← invoke paper "isConfirm" [];
  '(paper, _) ← (if truthy c then invoke paper "setEarlyPay" []
                 else mret (paper, Undefined));
  (* Check paper is not already early paid *)
  '(paper, c) ← invoke paper "isEarlyPay" [];
  '(paper, _) ← (if truthy c then invoke paper "setOwner" [Str newOwner]
                 else
                   '(_, state) ← invoke paper "getCurrentState" [];
                   throw (Error ("Paper " +:+ issuer +:+ dec paperNumber +:+
                                 " is not early paid. Current state = " +:+
                                 ToString state)));
  (* Update the paper *)
  PaperList.updatePaper paper;;
  '(_, buffer) ← invoke paper "toBuffer" [];
  mret buffer.

(** Acknowledge commercial paper *)
Definition acknowledge (issuer : string) (paperNumber : Z)
    (currentOwner newOwner : string) (acknowledge : Z) (acknowledgeDateTime : string)
  : M jsval :=
  (* Retrieve the current paper using key fields provided *)
  let paperKey := makeKey [Str issuer; Num paperNumber] in
  paper ← PaperList.getPaper paperKey;
  (* Validate current owner *)
  '(paper, owner) ← invoke paper "getOwner" [];
  if negb (strict_eq owner (Str currentOwner)) then
    throw (Error ("Paper " +:+ issuer +:+ dec paperNumber +:+
                  " is not owned by " +:+ currentOwner))
  else
  (* First buy moves state from EARLYPAY to ACKNOWLEDGE *)
  '(paper, c) ← invoke paper "isEarlyPay" [];
  '(paper, _) ← (if truthy c then invoke paper "setAcknowledge" []
                 else mret (paper, Undefined));
  (* Check paper is not already ACKNOWLEDGE *)
  '(paper, c) ← invoke paper "isAcknowledge" [];
  '(paper, _) ← (if truthy c then invoke paper "setOwner" [Str newOwner]
                 else
                   '(_, state) ← invoke paper "getCurrentState" [];
                   throw (Error ("Paper " +:+ issuer +:+ dec paperNumber +:+
                                 " is not acknowledged. Current state = " +:+
                                 ToString state)));
  (* Update the paper *)
  PaperList.updatePaper paper;;
  '(_, buffer) ← invoke paper "toBuffer" [];
  mret buffer.

(** Pay commercial paper *)
Definition pay (issuer : string) (paperNumber : Z)
    (currentOwner newOwner : string) (pay : Z) (payDateTime : string)
  : M jsval :=
  (* Retrieve the current paper using key fields provided *)
  let paperKey := makeKey [Str issuer; Num paperNumber] in
  paper ← PaperList.getPaper paperKey;
  (* Validate current owner *)
  '(paper, owner) ← invoke paper "getOwner" [];
  if negb (strict_eq owner (Str currentOwner)) then
    throw (Error ("Paper " +:+ issuer +:+ dec paperNumber +:+
                  " is not owned by " +:+ currentOwner))
  else
  (* First buy moves state from ACKNOWLEDGE to PAY *)
  '(paper, c) ← invoke paper "isAcknowledge" [];
  '(paper, _) ← (if truthy c then invoke paper "setPay" []
                 else mret (paper, Undefined));
  (* Check paper is not already pay *)
  '(paper, c) ← invoke paper "isPay" [];
  '(paper, _) ← (if truthy c then invoke paper "setOwner" [Str newOwner]
                 else
                   '(_, state) ← invoke paper "getCurrentState" [];
                   throw (Error ("Paper " +:+ issuer +:+ dec paperNumber +:+
                                 " is not paid. Current state = " +:+
                                 ToString state)));
  (* Update the paper *)
  PaperList.updatePaper paper;;
  '(_, buffer) ← invoke paper "toBuffer" [];
  mret buffer.

End CommercialPaperContract.

(** ** Transactions *)

(** The six advancing operations of the contract. *)
Inductive operation : Type :=
| Invoice | Issue | Confirm | EarlyPay | Acknowledge | Pay.

Definition run (op : operation)
  : string -> Z -> string -> string -> Z -> string -> M jsval :=
  match op with
  | Invoice => CommercialPaperContract.invoice
  | Issue => CommercialPaperContract.issue
  | Confirm => CommercialPaperContract.confirm
  | EarlyPay => CommercialPaperContract.earlyPay
  | Acknowledge => CommercialPaperContract.acknowledge
  | Pay => CommercialPaperContract.pay
  end.

(** A transaction submitted to the contract: one of the seven operations
    with its arguments. *)
Inductive transaction : Type :=
| Purchase (issuer : string) (paperNumber : Z)
    (newOwner issueDateTime maturityDateTime : string) (faceValue : Z)
| Advance (op : operation) (issuer : string) (paperNumber : Z)
    (currentOwner newOwner : string) (amount : Z) (dateTime : string).

Definition submit (t : transaction) : M jsval :=
  match t with
  | Purchase i n o idt mdt fv => CommercialPaperContract.purchase i n o idt mdt fv
  | Advance op i n c o a d => run op i n c o a d
  end.

(** The ledger after a sequence of transactions, each run on the ledger
    the previous one left. *)
Definition exec (ts : list transaction) (l : Ledger) : Ledger :=
  fold_left (fun l t => snd (submit t l)) ts l.

Definition genesis : Ledger := mkLedger ∅ [].

(** The numeric lifecycle state of an entity, when it has one. *)
Definition state_of (paper : object) : option Z :=
  match get paper "currentState" with
  | Num s => Some s
  | _ => None
  end.

(** Every record is stored at the key derived from its own fields. *)
Definition well_keyed (l : Ledger) : Prop :=
  forall k paper, world l !! k = Some paper -> PaperList.keyOf paper = k.

(** The two errors the contract raises itself, under the names the
    specification gives them. *)
Definition OwnerMismatch (issuer : string) (paperNumber : Z)
    (currentOwner : string) : exn :=
  Error ("Paper " +:+ issuer +:+ dec paperNumber +:+
         " is not owned by " +:+ currentOwner).

Definition InvalidStateTransition (issuer : string) (paperNumber : Z)
    (expected : string) (actual : jsval) : exn :=
  Error ("Paper " +:+ issuer +:+ dec paperNumber +:+ " is not " +:+ expected
         +:+ ". Current state = " +:+ ToString actual).

(** ** The lifecycle as the specification words it *)

Module Spec.

(** The canonical ordered lifecycle states of the specification. *)
Definition PURCHASE : Z := 1.
Definition INVOICE : Z := 2.
Definition ISSUE : Z := 3.
Definition CONFIRM : Z := 4.
Definition EARLYPAY : Z := 5.
Definition ACKNOWLEDGE : Z := 6.
Definition PAY : Z := 7.

(** The state names, and for each state the setter and the predicate
    the operations use for it. *)
Definition states : list (string * Z) :=
  [ ("PURCHASE", PURCHASE); ("INVOICE", INVOICE); ("ISSUE", ISSUE);
    ("CONFIRM", CONFIRM); ("EARLYPAY", EARLYPAY);
    ("ACKNOWLEDGE", ACKNOWLEDGE); ("PAY", PAY) ].

Definition setters : list string :=
  [ "setPurchase"; "setInvoice"; "setIssue"; "setConfirm"; "setEarlyPay";
    "setAcknowledge"; "setPay" ].

Definition predicates : list string :=
  [ "isPurchase"; "isInvoice"; "isIssue"; "isConfirm"; "isEarlyPay";
    "isAcknowledge"; "isPay" ].

(** Predecessor and target state of each advancing operation. *)
Definition predecessor (op : operation) : Z :=
  match op with
  | Invoice => PURCHASE
  | Issue => INVOICE
  | Confirm => ISSUE
  | EarlyPay => CONFIRM
  | Acknowledge => EARLYPAY
  | Pay => ACKNOWLEDGE
  end.

Definition target (op : operation) : Z :=
  match op with
  | Invoice => INVOICE
  | Issue => ISSUE
  | Confirm => CONFIRM
  | EarlyPay => EARLYPAY
  | Acknowledge => ACKNOWLEDGE
  | Pay => PAY
  end.

End Spec.

(** ** The shared shape of the advancing operations *)

(** The six operations are the same text up to three method names and one
    message; [advance] is that text with the four of them as parameters. *)
Definition advance (isPred setTarget isTarget notTarget : string)
    (issuer : string) (paperNumber : Z) (currentOwner newOwner : string)
  : M jsval :=
  let paperKey := CommercialPaperContract.makeKey [Str issuer; Num paperNumber] in
  paper ← PaperList.getPaper paperKey;
  '(paper, owner) ← CommercialPaperContract.invoke paper "getOwner" [];
  if negb (strict_eq owner (Str currentOwner)) then
    throw (Error ("Paper " +:+ issuer +:+ dec paperNumber +:+
                  " is not owned by " +:+ currentOwner))
  else
  '(paper, c) ← CommercialPaperContract.invoke paper isPred [];
  '(paper, _) ← (if truthy c then CommercialPaperContract.invoke paper setTarget []
                 else mret (paper, Undefined));
  '(paper, c) ← CommercialPaperContract.invoke paper isTarget [];
  '(paper, _) ← (if truthy c
                 then CommercialPaperContract.invoke paper "setOwner" [Str newOwner]
                 else
                   '(_, state) ← CommercialPaperContract.invoke paper "getCurrentState" [];
                   throw (Error ("Paper " +:+ issuer +:+ dec paperNumber +:+
                                 notTarget +:+ ToString state)));
  PaperList.updatePaper paper;;
  '(_, buffer) ← CommercialPaperContract.invoke paper "toBuffer" [];
  mret buffer.

Definition isPred_name (op : operation) : string :=
  match op with
  | Invoice => "isPurchase" | Issue => "isInvoice" | Confirm => "isIssue"
  | EarlyPay => "isConfirm" | Acknowledge => "isEarlyPay" | Pay => "isAcknowledge"
  end.

Definition setTarget_name (op : operation) : string :=
  match op with
  | Invoice => "setInvoice" | Issue => "setIssue" | Confirm => "setConfirm"
  | EarlyPay => "setEarlyPay" | Acknowledge => "setAcknowledge" | Pay => "setPay"
  end.

Definition isTarget_name (op : operation) : string :=
  match op with
  | Invoice => "isInvoice" | Issue => "isIssue" | Confirm => "isConfirm"
  | EarlyPay => "isEarlyPay" | Acknowledge => "isAcknowledge" | Pay => "isPay"
  end.

Definition notTarget_text (op : operation) : string :=
  match op with
  | Invoice => " is not invoiced. Current state = "
  | Issue => " is not issued. Current state = "
  | Confirm => " is not confirmed. Current state = "
  | EarlyPay => " is not early paid. Current state = "
  | Acknowledge => " is not acknowledged. Current state = "
  | Pay => " is not paid. Current state = "
  end.

(** ** The operations in normal form *)

(** The operations whose three state methods the entity class defines. *)
Definition working (op : operation) : bool :=
  match op with
  | Invoice | Issue | Confirm => true
  | EarlyPay | Acknowledge | Pay => false
  end.

(** The participle by which the state error of an operation names the state
    it expected. *)
Definition expected (op : operation) : string :=
  match op with
  | Invoice => "invoiced"
  | Issue => "issued"
  | Confirm => "confirmed"
  | EarlyPay => "early paid"
  | Acknowledge => "acknowledged"
  | Pay => "paid"
  end.

(** The entity an advancing operation persists when it succeeds: the loaded
    one with its owner replaced, after at most one assignment of the
    state, from the predecessor to the target. *)
Definition advanced (op : operation) (o : string) (p : object) : object :=
  set (if strict_eq (get p "currentState") (Num (Spec.predecessor op))
       then set p "currentState" (Num (Spec.target op)) else p)
      "owner" (Str o).

(** Advance-or-transfer on a loaded entity whose owner has been checked,
    with the method calls resolved; [l1] is the ledger after the owner
    check. *)
Definition settle (op : operation) (i : string) (n : Z) (o : string)
    (p : object) (l1 : Ledger) : result jsval * Ledger :=
  let atP := strict_eq (get p "currentState") (Num (Spec.predecessor op)) in
  let p1 := if atP then set p "currentState" (Num (Spec.target op)) else p in
  let l2 := record (Invoke (isPred_name op)) l1 in
  let l3 := record (Invoke (isTarget_name op))
              (if atP then record (Invoke (setTarget_name op)) l2 else l2) in
  if strict_eq (get p1 "currentState") (Num (Spec.target op)) then
    match PaperList.updatePaper (advanced op o p)
            (record (Invoke "setOwner") l3) with
    | (Ok _, l4) =>
        (Ok (Buf (JSON_stringify (advanced op o p))),
         record (Invoke "toBuffer") l4)
    | (Throw e, l4) => (Throw e, l4)
    end
  else
    (Throw (InvalidStateTransition i n (expected op) (get p1 "currentState")),
     record (Invoke "getCurrentState") l3).

(** What an advancing operation computes, with the method calls resolved:
    [run_outcome] below proves that every operation of the contract equals
    its normal form. *)
Definition outcome (op : operation) (i : string) (n : Z) (c o : string)
    (l : Ledger) : result jsval * Ledger :=
  let key := CommercialPaperContract.makeKey [Str i; Num n] in
  match world l !! key with
  | None => (Throw (NotFound key), record (GetPaper key) l)
  | Some p =>
      let l1 := record (Invoke "getOwner") (record (GetPaper key) l) in
      if negb (strict_eq (get p "owner") (Str c))
      then (Throw (OwnerMismatch i n c), l1)
      else
        match op with
        | Invoice | Issue | Confirm => settle op i n o p l1
        | EarlyPay =>
            if strict_eq (get p "currentState") (Num 4)
            then (Throw (TypeError "paper.setEarlyPay is not a function"),
                  record (Invoke "isConfirm") l1)
            else (Throw (TypeError "paper.isEarlyPay is not a function"),
                  record (Invoke "isConfirm") l1)
        | Acknowledge =>
            (Throw (TypeError "paper.isEarlyPay is not a function"), l1)
        | Pay =>
            (Throw (TypeError "paper.isAcknowledge is not a function"), l1)
        end
  end.

(** The calls of an advancing operation that succeeds, after the owner
    check and in all. *)
Definition settle_calls (op : operation) (o : string) (p : object) : list Call :=
  [Invoke (isPred_name op)] ++
  (if strict_eq (get p "currentState") (Num (Spec.predecessor op))
   then [Invoke (setTarget_name op)] else []) ++
  [Invoke (isTarget_name op); Invoke "setOwner";
   UpdatePaper (advanced op o p); Invoke "toBuffer"].

Definition advance_calls (op : operation) (key o : string) (p : object)
  : list Call :=
  [GetPaper key; Invoke "getOwner"] ++ settle_calls op o p.

(** The calls of [purchase] when it succeeds. *)
Definition purchase_calls (p : object) : list Call :=
  [Invoke "setPurchase"; Invoke "setOwner"; AddPaper p; Invoke "toBuffer"].

(** The calls of [earlyPay], [acknowledge] and [pay] on an entity that is
    found and owned by the caller. *)
Definition broken_calls (op : operation) (key : string) : list Call :=
  [GetPaper key; Invoke "getOwner"] ++
  match op with
  | EarlyPay => [Invoke "isConfirm"]
  | _ => []
  end.

(** The methods of the entity class that assign [currentState], and the
    number of times a list of calls runs one of them. *)
Definition state_setters : list string :=
  [ "setPurchase"; "setInvoice"; "setIssue"; "setConfirm"; "setDeposit";
    "setApprove"; "setPay" ].

Definition assigns_state (c : Call) : bool :=
  match c with
  | Invoke name => existsb (String.eqb name) state_setters
  | _ => false
  end.

Definition assignments (cs : list Call) : nat :=
  length (List.filter assigns_state cs).

Definition writes (c : Call) : bool :=
  match c with
  | AddPaper _ | UpdatePaper _ => true
  | _ => false
  end.

(** Calls that assign the state at most once and run none of [setDeposit],
    [setApprove] and [setPay]. *)
Definition tame (cs : list Call) : bool :=
  (assignments cs <=? 1)%nat &&
  forallb (fun c => match c with
                    | Invoke name =>
                        negb (existsb (String.eqb name)
                                ["setDeposit"; "setApprove"; "setPay"])
                    | _ => true
                    end) cs.

(** The entity [purchase] creates. *)
Definition created (i : string) (n : Z) (o idt mdt : string) (fv : Z) : object :=
  [ ("class", Str CommercialPaper.getClass);
    ("issuer", Str i);
    ("paperNumber", Num n);
    ("issueDateTime", Str idt);
    ("maturityDateTime", Str mdt);
    ("faceValue", Num fv);
    ("currentState", Num 1);
    ("owner", Str o) ].

(** Two entities that differ at most in [owner] and [currentState]. *)
Definition same_frame (p p' : object) : Prop :=
  forall f, f <> "owner" -> f <> "currentState" -> get p' f = get p f.

(** The states the operations that work can leave an entity in. *)
Definition first_four (p : object) : Prop :=
  exists s, state_of p = Some s /\ 1 <= s <= 4.

(** The first method an operation calls that the entity class does not
    define, given the loaded entity; none for the operations that work. *)
Definition first_missing (op : operation) (p : object) : option string :=
  match op with
  | Invoice | Issue | Confirm => None
  | EarlyPay =>
      if strict_eq (get p "currentState") (Num 4)
      then Some "setEarlyPay" else Some "isEarlyPay"
  | Acknowledge => Some "isEarlyPay"
  | Pay => Some "isAcknowledge"
  end.

Definition not_a_function (name : string) : exn :=
  TypeError ("paper." +:+ name +:+ " is not a function").

(** Is [name] a method of the entity class?  Is [name] a member of the
    state enumeration with value [v]? *)
Definition defines (name : string) : bool :=
  match find_method name CommercialPaper.methods with
  | Some _ => true
  | None => false
  end.

Definition enumerates (nv : string * Z) : bool :=
  strict_eq (get cpState (fst nv)) (Num (snd nv)).

(** ** Scenarios *)

(** The trade of the specification: MagnetoCorp paper 1, purchased, then
    invoiced, issued and confirmed. *)
Definition trade_purchase : transaction :=
  Purchase "MagnetoCorp" 1 "MagnetoCorp" "2020-05-31" "2020-11-30" 5000000.
Definition trade_invoice : transaction :=
  Advance Invoice "MagnetoCorp" 1 "MagnetoCorp" "DigiBank" 4900000 "2020-06-01".
Definition trade_issue : transaction :=
  Advance Issue "MagnetoCorp" 1 "DigiBank" "Hedgematic" 4910000 "2020-06-02".
Definition trade_confirm : transaction :=
  Advance Confirm "MagnetoCorp" 1 "Hedgematic" "BigFund" 4920000 "2020-06-03".

Definition paper_purchased : object :=
  created "MagnetoCorp" 1 "MagnetoCorp" "2020-05-31" "2020-11-30" 5000000.
Definition paper_confirmed : object :=
  set (set paper_purchased "currentState" (Num 4)) "owner" (Str "BigFund").

Definition paper_issued : object :=
  set (set paper_purchased "currentState" (Num 3)) "owner" (Str "Hedgematic").

Definition ledger_purchased : Ledger := exec [trade_purchase] genesis.
Definition ledger_invoiced : Ledger :=
  exec [trade_purchase; trade_invoice] genesis.
Definition ledger_issued : Ledger :=
  exec [trade_purchase; trade_invoice; trade_issue] genesis.
Definition ledger_confirmed : Ledger :=
  exec [trade_purchase; trade_invoice; trade_issue; trade_confirm] genesis.

(** ** Keys and serialised entities *)



(** What may follow an integer literal for the literal to end there. *)
Definition number_end (rest : string) : bool :=
  match rest with
  | EmptyString => true
  | String c _ =>
      negb (is_digit c || Ascii.eqb c "." || Ascii.eqb c "e" || Ascii.eqb c "E")
  end.

(** The values that JSON text represents without loss and that the fields
    of an entity take: null, booleans, integers and strings. *)
Definition scalar (v : jsval) : bool :=
  match v with
  | Null | Bool _ | Num _ | Str _ => true
  | Undefined | Arr _ | Obj _ | Buf _ => false
  end.

Fixpoint distinct_keys (o : object) : bool :=
  match o with
  | [] => true
  | (k, _) :: o' => negb (has o' k) && distinct_keys o'
  end.

(** An instance of the entity class as the constructor and the setters
    build it: the type tag comes first, no property is repeated, and every
    field is a scalar. *)
Definition is_entity (e : object) : bool :=
  match e with
  | (k, v) :: _ => String.eqb k "class" && strict_eq v (Str CommercialPaper.getClass)
  | [] => false
  end && distinct_keys e && forallb (fun kv => scalar (snd kv)) e.

(** Is the transaction one of the six advancing operations? *)
Definition is_advance (t : transaction) : bool :=
  match t with
  | Advance _ _ _ _ _ _ _ => true
  | Purchase _ _ _ _ _ _ => false
  end.

(** ** The entity class seen through its methods *)

(** [paper.name(args)] on an instance of the entity class. *)
Definition send (paper : object) (name : string) (args : list jsval)
  : result (object * jsval) :=
  call CommercialPaper.methods "paper" paper name args.

(** The state predicates of the entity class, in the order of the states
    they test; [state_setters] lists the setters in the same order. *)
Definition state_predicates : list string :=
  [ "isPurchase"; "isInvoice"; "isIssue"; "isConfirm"; "isDeposit";
    "isApprove"; "isPay" ].

(** The property a method of the entity class assigns, if it assigns one. *)
Definition written_field (name : string) : option string :=
  if String.eqb name "setIssuer" then Some "issuer"
  else if String.eqb name "setOwner" then Some "owner"
  else if existsb (String.eqb name) state_setters then Some "currentState"
  else None.

(** ** The buffer of a response *)

(** The numbers of the bytes of a buffer, as its JSON form lists them. *)
Definition byte_values (b : bytes) : list Z :=
  map (fun c => Z.of_N (N_of_ascii c)) (list_ascii_of_string b).

(** The text before the bytes in the JSON form of a buffer. *)
Definition buffer_prefix : string :=
  "{" +:+ quote "type" +:+ ":" +:+ quote "Buffer" +:+ "," +:+
  quote "data" +:+ ":[".

(** ** The calls on the ledger collection *)

(** The calls of a transaction that reach the ledger collection. *)
Definition ledger_calls (cs : list Call) : list Call :=
  List.filter (fun c => match c with Invoke _ => false | _ => true end) cs.

(** The checks an advancing operation makes on the entity it has loaded:
    the caller owns it, the state methods the operation calls exist, and
    the entity is in the state the operation tests first or in the state
    it leads to. *)
Definition clears_checks (op : operation) (c : string) (p : object) : bool :=
  strict_eq (get p "owner") (Str c) && working op &&
  (strict_eq (get p "currentState") (Num (Spec.predecessor op)) ||
   strict_eq (get p "currentState") (Num (Spec.target op))).

(** The paper of the trade after [invoice]. *)
Definition paper_invoiced : object :=
  set (set paper_purchased "currentState" (Num 2)) "owner" (Str "DigiBank").

(** The properties of an entity the contract has stored, in their order:
    the tag, the five fields given to [purchase], then the state and the
    owner that [purchase] sets. *)
Definition entity_fields : list string :=
  [ "class"; "issuer"; "paperNumber"; "issueDateTime"; "maturityDateTime";
    "faceValue"; "currentState"; "owner" ].

(** An entity with exactly these properties, the tag of the class, a
    number for state and a string for owner. *)
Definition shaped (p : object) : Prop :=
  map fst p = entity_fields /\
  get p "class" = Str CommercialPaper.getClass /\
  (exists s, get p "currentState" = Num s) /\
  (exists o, get p "owner" = Str o).

(** * Properties *)

(** ** Values and objects *)

Lemma strict_eq_Str v s : strict_eq v (Str s) = true <-> v = Str s.
Proof.
  destruct v; simpl; split; try discriminate; try congruence.
  - intros H. apply String.eqb_eq in H. congruence.
  - intros [= ->]. apply String.eqb_refl.
Qed.

Lemma strict_eq_Num v z : strict_eq v (Num z) = true <-> v = Num z.
Proof.
  destruct v; simpl; split; try discriminate; try congruence.
  - intros H. apply Z.eqb_eq in H. congruence.
  - intros [= ->]. apply Z.eqb_refl.
Qed.

Lemma strict_eq_Num_false v z : strict_eq v (Num z) = false <-> v <> Num z.
Proof.
  rewrite <- strict_eq_Num. destruct (strict_eq v (Num z)); split; congruence.
Qed.

Lemma strict_eq_Str_false v s : strict_eq v (Str s) = false <-> v <> Str s.
Proof.
  rewrite <- strict_eq_Str. destruct (strict_eq v (Str s)); split; congruence.
Qed.

Lemma get_set_eq o k v : get (set o k v) k = v.
Proof.
  induction o as [|[k' v'] o IH]; simpl.
  - now rewrite String.eqb_refl.
  - destruct (String.eqb k' k) eqn:E; simpl; rewrite E; auto.
Qed.

Lemma get_set_ne o k k' v : k <> k' -> get (set o k v) k' = get o k'.
Proof.
  intros Hne. induction o as [|[k0 v0] o IH]; simpl.
  - apply String.eqb_neq in Hne. now rewrite Hne.
  - destruct (String.eqb k0 k) eqn:E; simpl.
    + apply String.eqb_eq in E. subst k0.
      apply String.eqb_neq in Hne. now rewrite Hne.
    + now rewrite IH.
Qed.

Lemma keyOf_set p k v :
  k <> "issuer" -> k <> "paperNumber" ->
  PaperList.keyOf (set p k v) = PaperList.keyOf p.
Proof.
  intros H1 H2. unfold PaperList.keyOf. now rewrite !get_set_ne.
Qed.

(** ** The transaction monad *)

Lemma bind_ok {A B} (m : M A) (k : A -> M B) l a l' :
  m l = (Ok a, l') -> (m ≫= k) l = k a l'.
Proof. intros H. unfold mbind, M_bind. rewrite H. reflexivity. Qed.

Lemma bind_throw {A B} (m : M A) (k : A -> M B) l e l' :
  m l = (Throw e, l') -> (m ≫= k) l = (Throw e, l').
Proof. intros H. unfold mbind, M_bind. rewrite H. reflexivity. Qed.

Section Invoke.
Import CommercialPaperContract.

Lemma invoke_reader p name f args l :
  find_method name CommercialPaper.methods = Some (reader f) ->
  invoke p name args l = (Ok (p, f p), record (Invoke name) l).
Proof. intros H. unfold invoke, call. now rewrite H. Qed.

Lemma invoke_mutator p name f args l :
  find_method name CommercialPaper.methods = Some (mutator f) ->
  invoke p name args l = (Ok (f p, Undefined), record (Invoke name) l).
Proof. intros H. unfold invoke, call. now rewrite H. Qed.

Lemma invoke_mutator1 p name f v l :
  find_method name CommercialPaper.methods = Some (mutator1 f) ->
  invoke p name [v] l = (Ok (f p v, Undefined), record (Invoke name) l).
Proof. intros H. unfold invoke, call. now rewrite H. Qed.

Lemma invoke_missing p name args l :
  find_method name CommercialPaper.methods = None ->
  invoke p name args l =
  (Throw (TypeError ("paper." +:+ name +:+ " is not a function")), l).
Proof. intros H. unfold invoke, call. now rewrite H. Qed.

End Invoke.

(** One step of a transaction body: the next method call is looked up in
    the method table of the class and its result substituted. *)
Ltac step :=
  first [ erewrite bind_ok by (apply invoke_reader; reflexivity)
        | erewrite bind_ok by (apply invoke_mutator; reflexivity)
        | erewrite bind_ok by (apply invoke_mutator1; reflexivity)
        | erewrite bind_throw by (apply invoke_missing; reflexivity)
        | erewrite bind_ok by reflexivity ];
  cbv beta iota.

Ltac states :=
  change (get cpState "PURCHASE") with (Num 1) in *;
  change (get cpState "INVOICE") with (Num 2) in *;
  change (get cpState "ISSUE") with (Num 3) in *;
  change (get cpState "CONFIRM") with (Num 4) in *;
  change (get cpState "PAY") with (Num 7) in *;
  cbv [Spec.predecessor Spec.target Spec.PURCHASE Spec.INVOICE Spec.ISSUE
       Spec.CONFIRM Spec.EARLYPAY Spec.ACKNOWLEDGE Spec.PAY] in *.

(** ** The operations and their normal form *)

Lemma run_advance op i n c o a d :
  run op i n c o a d =
  advance (isPred_name op) (setTarget_name op) (isTarget_name op)
          (notTarget_text op) i n c o.
Proof. destruct op; reflexivity. Qed.

Ltac after_update :=
  step; unfold CommercialPaper.setOwner;
  match goal with
  | |- context [PaperList.updatePaper ?q ?l1] =>
      destruct (PaperList.updatePaper q l1) as [[[]|?] ?] eqn:?
  end;
  match goal with
  | U : PaperList.updatePaper _ _ = (Ok _, _) |- _ =>
      erewrite bind_ok by exact U; step; reflexivity
  | U : PaperList.updatePaper _ _ = (Throw _, _) |- _ =>
      erewrite bind_throw by exact U; reflexivity
  end.

Ltac working_case :=
  step;
  cbn [truthy CommercialPaper.isPurchase CommercialPaper.isInvoice
       CommercialPaper.isIssue CommercialPaper.isConfirm];
  states;
  match goal with
  | |- context [strict_eq (get ?p "currentState") ?v] =>
      destruct (strict_eq (get p "currentState") v) eqn:?
  end;
  step; try step;
  cbn [truthy CommercialPaper.isPurchase CommercialPaper.isInvoice
       CommercialPaper.isIssue CommercialPaper.isConfirm];
  unfold CommercialPaper.setInvoice, CommercialPaper.setIssue,
         CommercialPaper.setConfirm;
  states;
  match goal with
  | |- context [if strict_eq ?a ?v then _ else _] =>
      destruct (strict_eq a v) eqn:?;
      [ after_update
      | erewrite bind_throw by (step; reflexivity); reflexivity ]
  end.

Lemma run_outcome op i n c o a d l :
  run op i n c o a d l = outcome op i n c o l.
Proof.
  rewrite run_advance. unfold outcome, settle, advanced, advance.
  destruct (world l !! CommercialPaperContract.makeKey [Str i; Num n])
    as [p|] eqn:Hp.
  2:{ erewrite bind_throw; [reflexivity|].
      unfold PaperList.getPaper; rewrite Hp; reflexivity. }
  erewrite bind_ok; [|unfold PaperList.getPaper; rewrite Hp; reflexivity].
  step. unfold CommercialPaper.getOwner.
  destruct (strict_eq (get p "owner") (Str c)) eqn:Ho;
    cbn [negb]; cbv iota; [|reflexivity].
  destruct op;
    cbn [isPred_name setTarget_name isTarget_name notTarget_text].
  - working_case.
  - working_case.
  - working_case.
  - step. cbn [truthy CommercialPaper.isConfirm]. states.
    destruct (strict_eq (get p "currentState") (Num 4)); step; [reflexivity|].
    step. reflexivity.
  - step. reflexivity.
  - step. reflexivity.
Qed.

(** ** Writing to the ledger *)

Lemma updatePaper_stored (p q : list (string * jsval)) l :
  world l !! PaperList.keyOf p = Some q ->
  PaperList.updatePaper p l =
  (Ok tt, mkLedger (<[PaperList.keyOf p := p]> (world l))
                   (calls l ++ [UpdatePaper p])).
Proof. intros H. unfold PaperList.updatePaper. now rewrite H. Qed.

Lemma updatePaper_world p l r l' :
  PaperList.updatePaper p l = (r, l') ->
  match r with
  | Ok _ => is_Some (world l !! PaperList.keyOf p) /\
            world l' = <[PaperList.keyOf p := p]> (world l) /\
            calls l' = (calls l ++ [UpdatePaper p])%list
  | Throw _ => world l' = world l
  end.
Proof.
  unfold PaperList.updatePaper.
  destruct (world l !! PaperList.keyOf p) eqn:E; intros [= <- <-]; simpl; eauto.
Qed.

Lemma keyOf_advanced op o p : PaperList.keyOf (advanced op o p) = PaperList.keyOf p.
Proof.
  unfold advanced. rewrite keyOf_set by discriminate.
  destruct (strict_eq _ _); [now rewrite keyOf_set by discriminate | reflexivity].
Qed.

Lemma settle_success op i n o p l1 b l' :
  settle op i n o p l1 = (Ok b, l') ->
  (get p "currentState" = Num (Spec.predecessor op) \/
   get p "currentState" = Num (Spec.target op)) /\
  is_Some (world l1 !! PaperList.keyOf p) /\
  b = Buf (JSON_stringify (advanced op o p)) /\
  world l' = <[PaperList.keyOf p := advanced op o p]> (world l1) /\
  calls l' = (calls l1 ++ settle_calls op o p)%list.
Proof.
  unfold settle, settle_calls. cbv zeta.
  destruct (strict_eq (get p "currentState") (Num (Spec.predecessor op))) eqn:E1;
    cbv iota.
  - apply strict_eq_Num in E1. rewrite get_set_eq. simpl strict_eq.
    rewrite Z.eqb_refl.
    destruct (PaperList.updatePaper _ _) as [[[]|e] l2] eqn:U; [|discriminate].
    intros [= <- <-]. apply updatePaper_world in U.
    rewrite keyOf_advanced in U. destruct U as (Hs & Hw' & Hc).
    simpl in *. rewrite Hc, <- !app_assoc. auto.
  - destruct (strict_eq (get p "currentState") (Num (Spec.target op))) eqn:E2;
      [|discriminate].
    apply strict_eq_Num in E2.
    destruct (PaperList.updatePaper _ _) as [[[]|e] l2] eqn:U; [|discriminate].
    intros [= <- <-]. apply updatePaper_world in U.
    rewrite keyOf_advanced in U. destruct U as (Hs & Hw' & Hc).
    simpl in *. rewrite Hc, <- !app_assoc. auto.
Qed.

(** A successful advancing operation, taken apart. *)
Lemma run_success op i n c o a d l b l' :
  run op i n c o a d l = (Ok b, l') ->
  exists p,
    working op = true /\
    world l !! CommercialPaperContract.makeKey [Str i; Num n] = Some p /\
    get p "owner" = Str c /\
    (get p "currentState" = Num (Spec.predecessor op) \/
     get p "currentState" = Num (Spec.target op)) /\
    is_Some (world l !! PaperList.keyOf p) /\
    b = Buf (JSON_stringify (advanced op o p)) /\
    world l' = <[PaperList.keyOf p := advanced op o p]> (world l) /\
    calls l' =
      (calls l ++
       advance_calls op (CommercialPaperContract.makeKey [Str i; Num n]) o p)%list.
Proof.
  rewrite run_outcome. unfold outcome.
  destruct (world l !! _) as [p|] eqn:Hp; [|discriminate].
  destruct (strict_eq (get p "owner") (Str c)) eqn:Ho; [|discriminate].
  apply strict_eq_Str in Ho. cbn [negb]. cbv iota zeta.
  intros H. exists p.
  assert (Hs : working op = true /\ settle op i n o p
             (record (Invoke "getOwner")
               (record (GetPaper (CommercialPaperContract.makeKey [Str i; Num n])) l))
             = (Ok b, l')).
  { destruct op; try (split; [reflexivity | exact H]); try discriminate H.
    destruct (strict_eq _ _) in H; discriminate H. }
  destruct Hs as [Hw Hs]. apply settle_success in Hs.
  destruct Hs as (Hst & Hsome & -> & Hworld & Hcalls).
  simpl in Hsome, Hworld, Hcalls. rewrite <- !app_assoc in Hcalls.
  repeat split; auto.
Qed.

(** A failed advancing operation leaves the world state as it was. *)
Lemma run_failure op i n c o a d l e l' :
  run op i n c o a d l = (Throw e, l') -> world l' = world l.
Proof.
  rewrite run_outcome. unfold outcome.
  destruct (world l !! _) as [p|] eqn:Hp; [|now intros [= <- <-]].
  cbv zeta. destruct (negb _); [now intros [= <- <-]|].
  assert (Hs : forall l1, world l1 = world l ->
             settle op i n o p l1 = (Throw e, l') -> world l' = world l).
  { intros l1 Hl1. unfold settle. cbv zeta.
    destruct (strict_eq _ (Num (Spec.target op)));
      [|intros [= <- <-]; simpl; destruct (strict_eq _ _); exact Hl1].
    destruct (PaperList.updatePaper _ _) as [[[]|e'] l2] eqn:U; [discriminate|].
    intros [= <- <-]. apply updatePaper_world in U. rewrite U. simpl.
    destruct (strict_eq _ _); exact Hl1. }
  destruct op; try (apply Hs; reflexivity); try (now intros [= <- <-]).
  destruct (strict_eq _ _); now intros [= <- <-].
Qed.

(** ** Purchase *)

Lemma purchase_outcome i n o idt mdt fv l :
  CommercialPaperContract.purchase i n o idt mdt fv l =
  match PaperList.addPaper (created i n o idt mdt fv)
          (record (Invoke "setOwner") (record (Invoke "setPurchase") l)) with
  | (Ok _, l') =>
      (Ok (Buf (JSON_stringify (created i n o idt mdt fv))),
       record (Invoke "toBuffer") l')
  | (Throw e, l') => (Throw e, l')
  end.
Proof.
  unfold CommercialPaperContract.purchase.
  step. step.
  change (CommercialPaper.setOwner _ _) with (created i n o idt mdt fv).
  destruct (PaperList.addPaper _ _) as [[[]|e] l'] eqn:U.
  - erewrite bind_ok by exact U. step. reflexivity.
  - erewrite bind_throw by exact U. reflexivity.
Qed.

Lemma keyOf_created i n o idt mdt fv :
  PaperList.keyOf (created i n o idt mdt fv) =
  CommercialPaperContract.makeKey [Str i; Num n].
Proof. reflexivity. Qed.

Lemma purchase_success i n o idt mdt fv l b l' :
  CommercialPaperContract.purchase i n o idt mdt fv l = (Ok b, l') ->
  world l !! CommercialPaperContract.makeKey [Str i; Num n] = None /\
  b = Buf (JSON_stringify (created i n o idt mdt fv)) /\
  world l' = <[CommercialPaperContract.makeKey [Str i; Num n] :=
                 created i n o idt mdt fv]> (world l) /\
  calls l' = (calls l ++ purchase_calls (created i n o idt mdt fv))%list.
Proof.
  rewrite purchase_outcome. unfold PaperList.addPaper, purchase_calls.
  rewrite keyOf_created. simpl world.
  destruct (world l !! _) eqn:E; [discriminate|].
  intros [= <- <-]. simpl. rewrite <- !app_assoc. auto.
Qed.

Lemma purchase_failure i n o idt mdt fv l e l' :
  CommercialPaperContract.purchase i n o idt mdt fv l = (Throw e, l') ->
  world l' = world l.
Proof.
  rewrite purchase_outcome. unfold PaperList.addPaper. simpl world.
  destruct (world l !! _) eqn:E; [|discriminate].
  now intros [= <- <-].
Qed.

(** ** Steps of the ledger *)

Lemma submit_failure t l e l' :
  submit t l = (Throw e, l') -> world l' = world l.
Proof.
  destruct t; simpl; [apply purchase_failure | apply run_failure].
Qed.

Lemma submit_well_keyed t l :
  well_keyed l -> well_keyed (snd (submit t l)).
Proof.
  intros Hwk. destruct (submit t l) as [[b|e] l'] eqn:H; simpl.
  2:{ apply submit_failure in H. unfold well_keyed. now rewrite H. }
  destruct t as [i n o idt mdt fv | op i n c o a d]; simpl in H.
  - apply purchase_success in H. destruct H as (_ & _ & Hw & _).
    intros k q. rewrite Hw, lookup_insert. case_decide.
    + intros [= <-]. subst k. apply keyOf_created.
    + apply Hwk.
  - apply run_success in H.
    destruct H as (p & _ & Hp & _ & _ & _ & _ & Hw & _).
    intros k q. rewrite Hw, lookup_insert. case_decide.
    + intros [= <-]. subst k. apply keyOf_advanced.
    + apply Hwk.
Qed.

Lemma exec_well_keyed ts l : well_keyed l -> well_keyed (exec ts l).
Proof.
  revert l. induction ts as [|t ts IH]; intros l Hwk; simpl; [exact Hwk|].
  apply IH, submit_well_keyed, Hwk.
Qed.

Lemma genesis_well_keyed : well_keyed genesis.
Proof. intros k q. unfold genesis. simpl. now rewrite lookup_empty. Qed.

(** ** What the three working operations do *)

Lemma predecessor_not_target op : Spec.predecessor op <> Spec.target op.
Proof. destruct op; discriminate. Qed.

Lemma logged_records (c1 c2 : Call) cs l :
  record c2 (record c1 l) = logged [c1; c2] l /\
  logged cs (logged [c1; c2] l) = logged (c1 :: c2 :: cs) l.
Proof.
  unfold record, logged. simpl. now rewrite <- !app_assoc.
Qed.

Section Working.
Variables (op : operation) (i : string) (n : Z) (c o : string) (a : Z) (d : string).
Variables (l : Ledger) (p : list (string * jsval)).
Hypothesis Hop : working op = true.
Hypothesis Hstored : world l !! CommercialPaperContract.makeKey [Str i; Num n] = Some p.
Hypothesis Hkey : PaperList.keyOf p = CommercialPaperContract.makeKey [Str i; Num n].
Hypothesis Howner : get p "owner" = Str c.

Let key := CommercialPaperContract.makeKey [Str i; Num n].

Lemma working_settles :
  run op i n c o a d l =
  settle op i n o p (record (Invoke "getOwner") (record (GetPaper key) l)).
Proof using Hop Hstored Howner.
  rewrite run_outcome. unfold outcome. rewrite Hstored, Howner.
  simpl strict_eq. rewrite String.eqb_refl. simpl negb. cbv iota zeta.
  destruct op; try discriminate Hop; reflexivity.
Qed.

(** At the predecessor state the operation advances the entity one step,
    hands it to the new owner, updates the record and returns its
    serialised form. *)
Lemma working_advance :
  get p "currentState" = Num (Spec.predecessor op) ->
  let p' := set (set p "currentState" (Num (Spec.target op))) "owner" (Str o) in
  run op i n c o a d l =
  (Ok (Buf (JSON_stringify p')),
   mkLedger (<[key := p']> (world l))
            (calls l ++
             [GetPaper key; Invoke "getOwner"; Invoke (isPred_name op);
              Invoke (setTarget_name op); Invoke (isTarget_name op);
              Invoke "setOwner"; UpdatePaper p'; Invoke "toBuffer"])%list).
Proof using Hop Hstored Hkey Howner.
  intros Hs p'. rewrite working_settles. unfold settle, advanced.
  rewrite Hs. simpl strict_eq. rewrite Z.eqb_refl. cbv iota zeta.
  rewrite get_set_eq. simpl strict_eq. rewrite Z.eqb_refl. fold p'.
  erewrite updatePaper_stored.
  - unfold p'. rewrite !keyOf_set by discriminate. rewrite Hkey.
    unfold record, logged. simpl. now rewrite <- !app_assoc.
  - unfold p'. rewrite !keyOf_set by discriminate. rewrite Hkey. exact Hstored.
Qed.

(** At the target state it only hands the entity to the new owner. *)
Lemma working_transfer :
  get p "currentState" = Num (Spec.target op) ->
  let p' := set p "owner" (Str o) in
  run op i n c o a d l =
  (Ok (Buf (JSON_stringify p')),
   mkLedger (<[key := p']> (world l))
            (calls l ++
             [GetPaper key; Invoke "getOwner"; Invoke (isPred_name op);
              Invoke (isTarget_name op); Invoke "setOwner"; UpdatePaper p';
              Invoke "toBuffer"])%list).
Proof using Hop Hstored Hkey Howner.
  intros Hs p'. rewrite working_settles. unfold settle, advanced.
  rewrite Hs. simpl strict_eq.
  destruct (Z.eqb_spec (Spec.target op) (Spec.predecessor op)) as [E|_].
  { symmetry in E. now apply predecessor_not_target in E. }
  cbv iota zeta. rewrite Hs. simpl strict_eq. rewrite Z.eqb_refl. fold p'.
  erewrite updatePaper_stored.
  - unfold p'. rewrite !keyOf_set by discriminate. rewrite Hkey.
    unfold record, logged. simpl. now rewrite <- !app_assoc.
  - unfold p'. rewrite !keyOf_set by discriminate. rewrite Hkey. exact Hstored.
Qed.

(** At any other state it is rejected, and the error names the expected
    state and reports the actual one. *)
Lemma working_reject :
  get p "currentState" <> Num (Spec.predecessor op) ->
  get p "currentState" <> Num (Spec.target op) ->
  run op i n c o a d l =
  (Throw (InvalidStateTransition i n (expected op) (get p "currentState")),
   logged [GetPaper key; Invoke "getOwner"; Invoke (isPred_name op);
           Invoke (isTarget_name op); Invoke "getCurrentState"] l).
Proof using Hop Hstored Howner.
  intros HP HT. rewrite working_settles. unfold settle.
  apply strict_eq_Num_false in HP, HT. rewrite HP. cbv iota zeta.
  rewrite HT. unfold record, logged. simpl. now rewrite <- !app_assoc.
Qed.

End Working.

(** ** The owner gate *)

(** C4.  Owner gate: when the supplied current owner is not the stored
    owner, every advancing operation fails with the owner-mismatch error
    before any mutation: the world state is untouched, and the only calls
    made are the read of the entity and [getOwner], so that no state is
    assigned, no owner is set and no update is attempted. *)
Theorem owner_gate op i n c o a d l p :
  world l !! CommercialPaperContract.makeKey [Str i; Num n] = Some p ->
  get p "owner" <> Str c ->
  let r := run op i n c o a d l in
  fst r = Throw (OwnerMismatch i n c) /\
  world (snd r) = world l /\
  world (snd r) !! CommercialPaperContract.makeKey [Str i; Num n] = Some p /\
  calls (snd r) =
    (calls l ++ [GetPaper (CommercialPaperContract.makeKey [Str i; Num n]);
                 Invoke "getOwner"])%list.
Proof.
  intros Hp Ho r. subst r. rewrite run_outcome. unfold outcome.
  rewrite Hp. apply strict_eq_Str_false in Ho. rewrite Ho. simpl.
  rewrite <- app_assoc. repeat split; auto.
Qed.

Lemma owner_gate_witness :
  let k := CommercialPaperContract.makeKey [Str "MagnetoCorp"; Num 1] in
  let r := run Invoice "MagnetoCorp" 1 "WrongParty" "DigiBank" 4900000
             "2020-06-01" ledger_purchased in
  fst r = Throw (OwnerMismatch "MagnetoCorp" 1 "WrongParty") /\
  world (snd r) = world ledger_purchased /\
  world (snd r) !! k = Some paper_purchased /\
  calls (snd r) = (calls ledger_purchased ++ [GetPaper k; Invoke "getOwner"])%list.
Proof.
  apply (owner_gate Invoice "MagnetoCorp" 1 "WrongParty" "DigiBank" 4900000
           "2020-06-01" ledger_purchased paper_purchased).
  - vm_compute. reflexivity.
  - vm_compute. discriminate.
Defined.

(** ** The three operations that cannot run *)

(** Once the entity is found and its owner checked, [earlyPay],
    [acknowledge] and [pay] call a state method the entity class does not
    define, and stop there. *)
Lemma broken_throws op i n c o a d l p name :
  world l !! CommercialPaperContract.makeKey [Str i; Num n] = Some p ->
  get p "owner" = Str c ->
  first_missing op p = Some name ->
  run op i n c o a d l =
  (Throw (not_a_function name),
   logged (broken_calls op (CommercialPaperContract.makeKey [Str i; Num n])) l).
Proof.
  intros Hp Ho Hm. rewrite run_outcome. unfold outcome.
  rewrite Hp, Ho. simpl strict_eq. rewrite String.eqb_refl. simpl negb.
  cbv iota zeta. unfold record, logged, broken_calls.
  destruct op; simpl in Hm; try discriminate Hm.
  - destruct (strict_eq _ _); injection Hm as <-; simpl;
      now rewrite <- !app_assoc.
  - injection Hm as <-; simpl; now rewrite <- !app_assoc.
  - injection Hm as <-; simpl; now rewrite <- !app_assoc.
Qed.

Lemma broken_missing op p :
  working op = false -> exists name, first_missing op p = Some name.
Proof.
  destruct op; try discriminate; intros _; simpl; eauto.
  destruct (strict_eq _ _); eauto.
Qed.

Lemma broken_calls_idle op key :
  assignments (broken_calls op key) = 0%nat /\
  existsb writes (broken_calls op key) = false.
Proof. destruct op; split; reflexivity. Qed.

(** C1.  The claim asks that every advancing operation, at its predecessor
    state and with the right owner, moves the entity to its target state,
    hands it over, updates it and returns it.  The code does so for
    [invoice], [issue] and [confirm] ([working_advance]); for [earlyPay],
    [acknowledge] and [pay] it raises a TypeError instead, because the
    entity class has no [setEarlyPay], [isEarlyPay] or [isAcknowledge]:
    nothing is returned, no state is assigned, no update is made and the
    stored entity stays as it was. *)
Theorem advance_fails_past_confirm op i n c o a d l p :
  working op = false ->
  world l !! CommercialPaperContract.makeKey [Str i; Num n] = Some p ->
  get p "owner" = Str c ->
  get p "currentState" = Num (Spec.predecessor op) ->
  let key := CommercialPaperContract.makeKey [Str i; Num n] in
  let r := run op i n c o a d l in
  (exists name, first_missing op p = Some name /\
                fst r = Throw (not_a_function name)) /\
  world (snd r) !! key = Some p /\
  calls (snd r) = (calls l ++ broken_calls op key)%list /\
  assignments (broken_calls op key) = 0%nat /\
  existsb writes (broken_calls op key) = false.
Proof.
  intros Hw Hp Ho _ key r. destruct (broken_missing op p Hw) as [name Hm].
  subst r. rewrite (broken_throws op i n c o a d l p name Hp Ho Hm). simpl.
  split; [exists name; auto|]. split; [exact Hp|]. split; [reflexivity|].
  apply broken_calls_idle.
Qed.

Lemma advance_fails_past_confirm_witness :
  let key := CommercialPaperContract.makeKey [Str "MagnetoCorp"; Num 1] in
  let r := run EarlyPay "MagnetoCorp" 1 "BigFund" "Hedgematic" 4950000
             "2020-06-04" ledger_confirmed in
  (exists name, first_missing EarlyPay paper_confirmed = Some name /\
                fst r = Throw (not_a_function name)) /\
  world (snd r) !! key = Some paper_confirmed /\
  calls (snd r) = (calls ledger_confirmed ++ broken_calls EarlyPay key)%list /\
  assignments (broken_calls EarlyPay key) = 0%nat /\
  existsb writes (broken_calls EarlyPay key) = false.
Proof.
  apply (advance_fails_past_confirm EarlyPay "MagnetoCorp" 1 "BigFund"
           "Hedgematic" 4950000 "2020-06-04" ledger_confirmed paper_confirmed);
    vm_compute; reflexivity.
Defined.

(** C5.  The claim asks that every advancing operation, on an entity that
    is at neither its predecessor nor its target state, fails with the
    state-transition error that reports the actual and the expected state.
    The code does so for [invoice], [issue] and [confirm]
    ([working_reject]); [earlyPay], [acknowledge] and [pay] fail with a
    TypeError that reports neither state.  Nothing is persisted. *)
Theorem skip_raises_type_error op i n c o a d l p :
  working op = false ->
  world l !! CommercialPaperContract.makeKey [Str i; Num n] = Some p ->
  get p "owner" = Str c ->
  get p "currentState" <> Num (Spec.predecessor op) ->
  get p "currentState" <> Num (Spec.target op) ->
  let r := run op i n c o a d l in
  (exists name, first_missing op p = Some name /\
                fst r = Throw (not_a_function name)) /\
  (forall expected actual,
     fst r <> Throw (InvalidStateTransition i n expected actual)) /\
  world (snd r) = world l.
Proof.
  intros Hw Hp Ho _ _ r. destruct (broken_missing op p Hw) as [name Hm].
  subst r. rewrite (broken_throws op i n c o a d l p name Hp Ho Hm). simpl.
  split; [exists name; auto | split; [discriminate | auto]].
Qed.

Lemma skip_raises_type_error_witness :
  let r := run EarlyPay "MagnetoCorp" 1 "MagnetoCorp" "DigiBank" 4900000
             "2020-06-01" ledger_purchased in
  (exists name, first_missing EarlyPay paper_purchased = Some name /\
                fst r = Throw (not_a_function name)) /\
  (forall expected actual,
     fst r <> Throw (InvalidStateTransition "MagnetoCorp" 1 expected actual)) /\
  world (snd r) = world ledger_purchased.
Proof.
  apply (skip_raises_type_error EarlyPay "MagnetoCorp" 1 "MagnetoCorp"
           "DigiBank" 4900000 "2020-06-01" ledger_purchased paper_purchased);
    vm_compute; solve [reflexivity | discriminate].
Defined.

(** ** The state enumeration and the state methods *)

(** C2.  The claim asks for the seven states PURCHASE, INVOICE, ISSUE,
    CONFIRM, EARLYPAY, ACKNOWLEDGE, PAY with values 1 to 7 and a setter and
    a predicate for each.  The enumeration of the entity has seven values
    1 to 7, but its fifth and sixth members are DEPOSIT and APPROVE: of the
    states of the claim, EARLYPAY and ACKNOWLEDGE are not enumerated, and
    of the methods the operations call, [setEarlyPay], [setAcknowledge],
    [isEarlyPay] and [isAcknowledge] are not defined. *)
Theorem earlypay_acknowledge_undefined :
  map snd cpState = map Num [1; 2; 3; 4; 5; 6; 7] /\
  map fst cpState =
    ["PURCHASE"; "INVOICE"; "ISSUE"; "CONFIRM"; "DEPOSIT"; "APPROVE"; "PAY"] /\
  List.filter (fun nv => negb (enumerates nv)) Spec.states =
    [("EARLYPAY", 5); ("ACKNOWLEDGE", 6)] /\
  List.filter (fun m => negb (defines m)) (Spec.setters ++ Spec.predicates)%list =
    ["setEarlyPay"; "setAcknowledge"; "isEarlyPay"; "isAcknowledge"].
Proof. repeat split. Qed.

(** ** One step forward at most *)

Lemma target_succ op : Spec.target op = Spec.predecessor op + 1.
Proof. destruct op; reflexivity. Qed.

Lemma get_advanced_state op o p :
  get (advanced op o p) "currentState" =
  if strict_eq (get p "currentState") (Num (Spec.predecessor op))
  then Num (Spec.target op) else get p "currentState".
Proof.
  unfold advanced. rewrite get_set_ne by discriminate.
  destruct (strict_eq _ _); [apply get_set_eq | reflexivity].
Qed.

Lemma advanced_same_frame op o p : same_frame p (advanced op o p).
Proof.
  intros f Ho Hs. unfold advanced. rewrite get_set_ne by congruence.
  destruct (strict_eq _ _); [now rewrite get_set_ne by congruence | reflexivity].
Qed.

Lemma same_frame_refl p : same_frame p p.
Proof. intros f _ _. reflexivity. Qed.

Lemma same_frame_trans p q r : same_frame p q -> same_frame q r -> same_frame p r.
Proof. intros H1 H2 f Ho Hs. rewrite H2, H1; auto. Qed.

(** What one transaction does to a record of a well-keyed ledger: it leaves
    it alone, or replaces it by its advanced form. *)
Lemma submit_record t l k p :
  well_keyed l -> world l !! k = Some p ->
  world (snd (submit t l)) !! k = Some p \/
  exists op o,
    working op = true /\
    (get p "currentState" = Num (Spec.predecessor op) \/
     get p "currentState" = Num (Spec.target op)) /\
    world (snd (submit t l)) !! k = Some (advanced op o p).
Proof.
  intros Hwk Hk. destruct (submit t l) as [[b|e] l'] eqn:H; simpl.
  2:{ apply submit_failure in H. left. now rewrite H. }
  destruct t as [i n o idt mdt fv | op i n c o a d]; simpl in H.
  - apply purchase_success in H. destruct H as (Hnone & _ & Hw & _).
    left. rewrite Hw, lookup_insert_ne; [exact Hk | congruence].
  - apply run_success in H.
    destruct H as (p0 & Hop & Hp0 & _ & Hst & _ & _ & Hw & _).
    rewrite Hw. rewrite (Hwk _ _ Hp0).
    destruct (decide (CommercialPaperContract.makeKey [Str i; Num n] = k)) as [<-|Hne].
    + right. exists op, o. rewrite lookup_insert_eq.
      assert (p0 = p) by congruence. subst p0. auto.
    + left. now rewrite lookup_insert_ne.
Qed.

(** A record that appears was created by [purchase]. *)
Lemma submit_new t l k p' :
  world l !! k = None -> world (snd (submit t l)) !! k = Some p' ->
  exists i n o idt mdt fv,
    t = Purchase i n o idt mdt fv /\ p' = created i n o idt mdt fv.
Proof.
  intros Hk. destruct (submit t l) as [[b|e] l'] eqn:H; simpl.
  2:{ apply submit_failure in H. rewrite H. congruence. }
  destruct t as [i n o idt mdt fv | op i n c o a d]; simpl in H.
  - apply purchase_success in H. destruct H as (Hnone & _ & Hw & _).
    rewrite Hw, lookup_insert. case_decide; [|congruence].
    intros [= <-]. eauto 10.
  - apply run_success in H.
    destruct H as (p0 & _ & _ & _ & _ & [q Hq] & _ & Hw & _).
    rewrite Hw, lookup_insert. case_decide; congruence.
Qed.

Lemma advance_calls_assignments op key o p :
  working op = true ->
  assignments (advance_calls op key o p) =
  if strict_eq (get p "currentState") (Num (Spec.predecessor op))
  then 1%nat else 0%nat.
Proof.
  intros Hop. unfold advance_calls, settle_calls.
  destruct op; try discriminate Hop; destruct (strict_eq _ _); reflexivity.
Qed.

(** A transaction that succeeds assigns the state at most once. *)
Lemma submit_assigns_once t l b l' :
  submit t l = (Ok b, l') ->
  exists cs, calls l' = (calls l ++ cs)%list /\ (assignments cs <= 1)%nat.
Proof.
  destruct t as [i n o idt mdt fv | op i n c o a d]; simpl; intros H.
  - apply purchase_success in H. destruct H as (_ & _ & _ & Hc).
    eexists. split; [exact Hc | cbv; lia].
  - apply run_success in H. destruct H as (p & Hop & _ & _ & _ & _ & _ & _ & Hc).
    eexists. split; [exact Hc|].
    rewrite advance_calls_assignments by exact Hop.
    destruct (strict_eq _ _); lia.
Qed.

(** C6.  Monotone state: a successful invocation of any of the seven
    operations on a well-keyed ledger keeps every stored entity, and the
    state of each is what it was or, for the entity the operation advanced,
    one step further: the state never decreases.  An entity that was not
    stored before was created by [purchase], with state PURCHASE.  Among
    the calls of the invocation at most one runs a method that assigns the
    state. *)
Theorem state_monotone t l b l' :
  well_keyed l ->
  submit t l = (Ok b, l') ->
  (forall k p, world l !! k = Some p ->
     exists p', world l' !! k = Some p' /\
       (get p' "currentState" = get p "currentState" \/
        exists s, state_of p = Some s /\ state_of p' = Some (s + 1)) /\
       (forall s, state_of p = Some s ->
          exists s', state_of p' = Some s' /\ s <= s' <= s + 1)) /\
  (forall k p', world l !! k = None -> world l' !! k = Some p' ->
     state_of p' = Some Spec.PURCHASE /\
     exists i n o idt mdt fv, t = Purchase i n o idt mdt fv) /\
  (exists cs, calls l' = (calls l ++ cs)%list /\ (assignments cs <= 1)%nat).
Proof.
  intros Hwk H.
  assert (Hl' : l' = snd (submit t l)) by now rewrite H.
  split; [|split].
  - intros k p Hk. destruct (submit_record t l k p Hwk Hk) as [Hs|Hs].
    + exists p. rewrite Hl'. split; [exact Hs|]. split; [now left|].
      intros s Hs'. exists s. split; [exact Hs'|lia].
    + destruct Hs as (op & o & Hop & Hst & Hs).
      exists (advanced op o p). rewrite Hl'. split; [exact Hs|].
      unfold state_of. rewrite get_advanced_state.
      destruct Hst as [Hst|Hst]; rewrite Hst; simpl strict_eq.
      * rewrite Z.eqb_refl. split.
        -- right. exists (Spec.predecessor op). now rewrite target_succ.
        -- intros s [= <-]. exists (Spec.target op). rewrite target_succ.
           split; [reflexivity|lia].
      * destruct (Z.eqb_spec (Spec.target op) (Spec.predecessor op)) as [E|_].
        { symmetry in E. now apply predecessor_not_target in E. }
        split; [now left|].
        intros s [= <-]. exists (Spec.target op). split; [reflexivity|lia].
  - intros k p' Hk Hk'. rewrite Hl' in Hk'.
    destruct (submit_new t l k p' Hk Hk') as (i & n & o & idt & mdt & fv & -> & ->).
    split; [reflexivity | eauto 10].
  - eapply submit_assigns_once; eauto.
Qed.

Lemma state_monotone_witness :
  let t := trade_issue in
  let l := ledger_invoiced in
  let l' := ledger_issued in
  (forall k p, world l !! k = Some p ->
     exists p', world l' !! k = Some p' /\
       (get p' "currentState" = get p "currentState" \/
        exists s, state_of p = Some s /\ state_of p' = Some (s + 1)) /\
       (forall s, state_of p = Some s ->
          exists s', state_of p' = Some s' /\ s <= s' <= s + 1)) /\
  (forall k p', world l !! k = None -> world l' !! k = Some p' ->
     state_of p' = Some Spec.PURCHASE /\
     exists i n o idt mdt fv, t = Purchase i n o idt mdt fv) /\
  (exists cs, calls l' = (calls l ++ cs)%list /\ (assignments cs <= 1)%nat).
Proof.
  apply (state_monotone trade_issue ledger_invoiced
           (Buf (JSON_stringify paper_issued)) ledger_issued).
  - apply exec_well_keyed, genesis_well_keyed.
  - vm_compute. reflexivity.
Defined.

(** ** The frame of the operations *)

Lemma submit_frame t l k p :
  well_keyed l -> world l !! k = Some p ->
  exists p', world (snd (submit t l)) !! k = Some p' /\ same_frame p p'.
Proof.
  intros Hwk Hk. destruct (submit_record t l k p Hwk Hk) as [Hs|Hs].
  - exists p. split; [exact Hs | apply same_frame_refl].
  - destruct Hs as (op & o & _ & _ & Hs).
    exists (advanced op o p). split; [exact Hs | apply advanced_same_frame].
Qed.

Lemma exec_frame ts l k p :
  well_keyed l -> world l !! k = Some p ->
  exists p', world (exec ts l) !! k = Some p' /\ same_frame p p'.
Proof.
  revert l p. induction ts as [|t ts IH]; intros l p Hwk Hk; simpl.
  - exists p. split; [exact Hk | apply same_frame_refl].
  - destruct (submit_frame t l k p Hwk Hk) as (p1 & Hk1 & Hf1).
    destruct (IH _ p1 (submit_well_keyed t l Hwk) Hk1) as (p' & Hk' & Hf').
    exists p'. split; [exact Hk' | eapply same_frame_trans; eauto].
Qed.

Lemma run_ignores_amount_and_date op i n c o a d a' d' :
  run op i n c o a d = run op i n c o a' d'.
Proof. destruct op; reflexivity. Qed.

(** C7.  Amounts and dates are not stored: an advancing operation computes
    the same whatever amount and date it is given, and along any sequence
    of advancing operations on a well-keyed ledger a stored entity differs
    from what it was in no field other than [owner] and [currentState]; in
    particular [issuer], [paperNumber], [issueDateTime], [maturityDateTime]
    and [faceValue] stay what they were. *)
Theorem only_owner_and_state_change ts l k p :
  forallb is_advance ts = true ->
  well_keyed l ->
  world l !! k = Some p ->
  (exists p', world (exec ts l) !! k = Some p' /\
     same_frame p p' /\
     get p' "issuer" = get p "issuer" /\
     get p' "paperNumber" = get p "paperNumber" /\
     get p' "issueDateTime" = get p "issueDateTime" /\
     get p' "maturityDateTime" = get p "maturityDateTime" /\
     get p' "faceValue" = get p "faceValue") /\
  (forall op i n c o a d a' d',
     run op i n c o a d = run op i n c o a' d').
Proof.
  intros _ Hwk Hk. split; [|apply run_ignores_amount_and_date].
  destruct (exec_frame ts l k p Hwk Hk) as (p' & Hk' & Hf).
  exists p'. repeat split; auto; apply Hf; discriminate.
Qed.

Lemma only_owner_and_state_change_witness :
  let ts := [trade_invoice; trade_issue; trade_confirm] in
  let k := CommercialPaperContract.makeKey [Str "MagnetoCorp"; Num 1] in
  (exists p', world (exec ts ledger_purchased) !! k = Some p' /\
     same_frame paper_purchased p' /\
     get p' "issuer" = get paper_purchased "issuer" /\
     get p' "paperNumber" = get paper_purchased "paperNumber" /\
     get p' "issueDateTime" = get paper_purchased "issueDateTime" /\
     get p' "maturityDateTime" = get paper_purchased "maturityDateTime" /\
     get p' "faceValue" = get paper_purchased "faceValue") /\
  (forall op i n c o a d a' d',
     run op i n c o a d = run op i n c o a' d').
Proof.
  apply (only_owner_and_state_change
           [trade_invoice; trade_issue; trade_confirm] ledger_purchased
           (CommercialPaperContract.makeKey [Str "MagnetoCorp"; Num 1])
           paper_purchased).
  - reflexivity.
  - apply exec_well_keyed, genesis_well_keyed.
  - vm_compute. reflexivity.
Defined.

(** ** The states that are reached *)

Lemma created_first_four i n o idt mdt fv : first_four (created i n o idt mdt fv).
Proof. exists 1. split; [reflexivity | lia]. Qed.

Lemma advanced_first_four op o p :
  working op = true ->
  get p "currentState" = Num (Spec.predecessor op) \/
  get p "currentState" = Num (Spec.target op) ->
  first_four (advanced op o p).
Proof.
  intros Hop Hst. exists (Spec.target op). split.
  - unfold state_of. rewrite get_advanced_state.
    destruct Hst as [Hst|Hst]; rewrite Hst; simpl strict_eq.
    + now rewrite Z.eqb_refl.
    + destruct (Z.eqb_spec (Spec.target op) (Spec.predecessor op)) as [E|_];
        reflexivity.
  - destruct op; try discriminate Hop; cbv; split; discriminate.
Qed.

(** Whatever the ledger, a record found after a transaction was there
    before, or was created by [purchase], or is the advanced form of a
    record that was at the predecessor or the target state of one of the
    working operations. *)
Lemma submit_origin t l k p' :
  world (snd (submit t l)) !! k = Some p' ->
  world l !! k = Some p' \/
  (exists i n o idt mdt fv, p' = created i n o idt mdt fv) \/
  (exists op o k0 p,
     working op = true /\ world l !! k0 = Some p /\
     (get p "currentState" = Num (Spec.predecessor op) \/
      get p "currentState" = Num (Spec.target op)) /\
     p' = advanced op o p).
Proof.
  destruct (submit t l) as [[b|e] l'] eqn:H; simpl.
  2:{ apply submit_failure in H. rewrite H. now left. }
  destruct t as [i n o idt mdt fv | op i n c o a d]; simpl in H.
  - apply purchase_success in H. destruct H as (_ & _ & Hw & _).
    rewrite Hw, lookup_insert. case_decide.
    + intros [= <-]. right. left. eauto 10.
    + now left.
  - apply run_success in H.
    destruct H as (p0 & Hop & Hp0 & _ & Hst & _ & _ & Hw & _).
    rewrite Hw, lookup_insert. case_decide.
    + intros [= <-]. right. right. eauto 10.
    + now left.
Qed.

Lemma submit_first_four t l k p' :
  world (snd (submit t l)) !! k = Some p' ->
  world l !! k = Some p' \/ first_four p'.
Proof.
  intros H. apply submit_origin in H.
  destruct H as [H|[H|H]]; [now left | right | right].
  - destruct H as (i & n & o & idt & mdt & fv & ->). apply created_first_four.
  - destruct H as (op & o & k0 & p & Hop & _ & Hst & ->).
    now apply advanced_first_four.
Qed.

Lemma exec_first_four ts l :
  (forall k p, world l !! k = Some p -> first_four p) ->
  forall k p, world (exec ts l) !! k = Some p -> first_four p.
Proof.
  revert l. induction ts as [|t ts IH]; intros l Hl; simpl; [exact Hl|].
  apply IH. intros k p Hk.
  destruct (submit_first_four t l k p Hk) as [H|H]; [eapply Hl; eauto | exact H].
Qed.

Lemma broken_never_succeeds op i n c o a d l :
  working op = false ->
  exists e, fst (run op i n c o a d l) = Throw e /\
            world (snd (run op i n c o a d l)) = world l.
Proof.
  intros Hop. destruct (run op i n c o a d l) as [[b|e] l'] eqn:H.
  - apply run_success in H. destruct H as (p & Hw & _). congruence.
  - exists e. split; [reflexivity|]. simpl. eapply run_failure; eauto.
Qed.

Lemma first_missing_undefined op p name :
  first_missing op p = Some name -> defines name = false.
Proof.
  destruct op; simpl; try discriminate.
  - destruct (strict_eq _ _); intros [= <-]; reflexivity.
  - intros [= <-]; reflexivity.
  - intros [= <-]; reflexivity.
Qed.

(** Whatever the ledger and whether it succeeds or not, a transaction
    assigns the state at most once and never runs [setDeposit],
    [setApprove] or [setPay]. *)
Lemma submit_tame t l :
  exists cs, calls (snd (submit t l)) = (calls l ++ cs)%list /\ tame cs = true.
Proof.
  destruct t as [i n o idt mdt fv | op i n c o a d]; simpl.
  - rewrite purchase_outcome. unfold PaperList.addPaper.
    destruct (world _ !! _);
      (eexists; split; [simpl; rewrite <- ?app_assoc; simpl; reflexivity
                       | reflexivity]).
  - rewrite run_outcome. unfold outcome.
    destruct (world l !! _) as [p|].
    2:{ eexists; split; [simpl; reflexivity | reflexivity]. }
    cbv zeta. destruct (negb _).
    { eexists; split; [simpl; rewrite <- ?app_assoc; simpl; reflexivity
                      | reflexivity]. }
    destruct op; unfold settle, PaperList.updatePaper; cbv zeta;
      repeat match goal with
             | |- context [if ?b then _ else _] => destruct b
             | |- context [match world ?l !! ?k with _ => _ end] =>
                 destruct (world l !! k)
             end;
      (eexists; split; [simpl; rewrite <- ?app_assoc; simpl; reflexivity
                       | reflexivity]).
Qed.

(** C10.  Reachable states: every entity of a ledger reached from the
    empty one by any sequence of the seven operations is in state PURCHASE,
    INVOICE, ISSUE or CONFIRM.  No transaction, on any ledger, stores an
    entity in another state or runs [setDeposit], [setApprove] or [setPay];
    [earlyPay], [acknowledge] and [pay] never succeed and never change the
    world state, and once the entity is found and its owner checked they
    stop at the call of a state method the entity class does not define,
    before any method that assigns the state has run. *)
Theorem reachable_states ts k p :
  world (exec ts genesis) !! k = Some p ->
  first_four p /\
  (forall t l k' q,
     world (snd (submit t l)) !! k' = Some q ->
     world l !! k' = Some q \/ first_four q) /\
  (forall t l,
     exists cs, calls (snd (submit t l)) = (calls l ++ cs)%list /\
                tame cs = true) /\
  (forall op i n c o a d l,
     working op = false ->
     exists e, fst (run op i n c o a d l) = Throw e /\
               world (snd (run op i n c o a d l)) = world l) /\
  (forall op i n c o a d l q,
     working op = false ->
     world l !! CommercialPaperContract.makeKey [Str i; Num n] = Some q ->
     get q "owner" = Str c ->
     exists name,
       defines name = false /\
       run op i n c o a d l =
       (Throw (not_a_function name),
        logged (broken_calls op
                  (CommercialPaperContract.makeKey [Str i; Num n])) l) /\
       assignments
         (broken_calls op (CommercialPaperContract.makeKey [Str i; Num n]))
       = 0%nat).
Proof.
  intros Hk. split; [|split; [|split; [|split]]].
  - eapply exec_first_four; [|exact Hk].
    intros k' q. unfold genesis. simpl. now rewrite lookup_empty.
  - apply submit_first_four.
  - apply submit_tame.
  - apply broken_never_succeeds.
  - intros op i n c o a d l q Hop Hq Ho.
    destruct (broken_missing op q Hop) as [name Hm].
    exists name. split; [eapply first_missing_undefined; eauto|].
    split; [now apply broken_throws with (p := q) | apply broken_calls_idle].
Qed.

Lemma reachable_states_witness :
  first_four paper_confirmed /\
  (forall t l k' q,
     world (snd (submit t l)) !! k' = Some q ->
     world l !! k' = Some q \/ first_four q) /\
  (forall t l,
     exists cs, calls (snd (submit t l)) = (calls l ++ cs)%list /\
                tame cs = true) /\
  (forall op i n c o a d l,
     working op = false ->
     exists e, fst (run op i n c o a d l) = Throw e /\
               world (snd (run op i n c o a d l)) = world l) /\
  (forall op i n c o a d l q,
     working op = false ->
     world l !! CommercialPaperContract.makeKey [Str i; Num n] = Some q ->
     get q "owner" = Str c ->
     exists name,
       defines name = false /\
       run op i n c o a d l =
       (Throw (not_a_function name),
        logged (broken_calls op
                  (CommercialPaperContract.makeKey [Str i; Num n])) l) /\
       assignments
         (broken_calls op (CommercialPaperContract.makeKey [Str i; Num n]))
       = 0%nat).
Proof.
  apply (reachable_states
           [trade_purchase; trade_invoice; trade_issue; trade_confirm;
            Advance EarlyPay "MagnetoCorp" 1 "BigFund" "Hedgematic" 4950000
              "2020-06-04"]
           (CommercialPaperContract.makeKey [Str "MagnetoCorp"; Num 1])
           paper_confirmed).
  vm_compute. reflexivity.
Defined.

(** ** Transfer at the target state *)

(** An entity of a ledger the contract has produced is at the target state
    of [invoice], [issue] or [confirm] only. *)
Lemma target_reached_by_working ts op k p :
  world (exec ts genesis) !! k = Some p ->
  get p "currentState" = Num (Spec.target op) ->
  working op = true.
Proof.
  intros Hp Hs.
  assert (H4 : first_four p).
  { apply (exec_first_four ts genesis) with k; [|exact Hp].
    intros k' q. unfold genesis. simpl. now rewrite lookup_empty. }
  destruct H4 as (s & Hst & Hle). unfold state_of in Hst. rewrite Hs in Hst.
  injection Hst as <-.
  destruct op; try reflexivity; cbv in Hle; destruct Hle as [_ Hle];
    exfalso; apply Hle; reflexivity.
Qed.

(** C3.  Pure transfer at the target state: on every ledger that the
    operations of the contract have produced from the empty one, an
    advancing operation called by the stored owner on an entity that is
    already at the target state of the operation does not fail; it
    replaces the record by the entity with the new owner, the state and
    every other property as they were, assigns no state, and returns the
    serialised form of that record.  Such an entity is at the target of
    [invoice], [issue] or [confirm]: no ledger the contract produces holds
    an entity past CONFIRM, so the three later operations never meet one
    at their target state. *)
Theorem transfer_at_target ts op i n c o a d p :
  world (exec ts genesis) !! CommercialPaperContract.makeKey [Str i; Num n]
    = Some p ->
  get p "owner" = Str c ->
  get p "currentState" = Num (Spec.target op) ->
  let key := CommercialPaperContract.makeKey [Str i; Num n] in
  let l := exec ts genesis in
  let r := run op i n c o a d l in
  let p' := CommercialPaper.setOwner p (Str o) in
  working op = true /\
  fst r = Ok (CommercialPaper.toBuffer p') /\
  world (snd r) = <[key := p']> (world l) /\
  get p' "owner" = Str o /\
  get p' "currentState" = Num (Spec.target op) /\
  (forall f, f <> "owner" -> get p' f = get p f) /\
  exists cs, calls (snd r) = (calls l ++ cs)%list /\ assignments cs = 0%nat.
Proof.
  intros Hp Ho Hs key l r p'.
  pose proof (target_reached_by_working ts op _ p Hp Hs) as Hop.
  assert (Hk : PaperList.keyOf p = key).
  { revert Hp. apply exec_well_keyed, genesis_well_keyed. }
  subst r. unfold l.
  rewrite (working_transfer op i n c o a d _ p Hop Hp Hk Ho Hs).
  cbn [fst snd world calls]. fold key.
  split; [exact Hop|]. split; [reflexivity|]. split; [reflexivity|].
  split; [apply get_set_eq|].
  split; [unfold p', CommercialPaper.setOwner;
          now rewrite get_set_ne by discriminate|].
  split; [intros f Hf; apply get_set_ne; congruence|].
  eexists. split; [reflexivity|].
  destruct op; try discriminate Hop; reflexivity.
Qed.

Lemma transfer_at_target_witness :
  let ts := [trade_purchase; trade_invoice; trade_issue; trade_confirm] in
  let key := CommercialPaperContract.makeKey [Str "MagnetoCorp"; Num 1] in
  let l := exec ts genesis in
  let r := run Confirm "MagnetoCorp" 1 "BigFund" "Hedgematic" 4920000
             "2020-06-05" l in
  let p' := CommercialPaper.setOwner paper_confirmed (Str "Hedgematic") in
  working Confirm = true /\
  fst r = Ok (CommercialPaper.toBuffer p') /\
  world (snd r) = <[key := p']> (world l) /\
  get p' "owner" = Str "Hedgematic" /\
  get p' "currentState" = Num (Spec.target Confirm) /\
  (forall f, f <> "owner" -> get p' f = get paper_confirmed f) /\
  exists cs, calls (snd r) = (calls l ++ cs)%list /\ assignments cs = 0%nat.
Proof.
  apply (transfer_at_target
           [trade_purchase; trade_invoice; trade_issue; trade_confirm]
           Confirm "MagnetoCorp" 1 "BigFund" "Hedgematic" 4920000 "2020-06-05"
           paper_confirmed); reflexivity.
Defined.

(** ** Keys *)












(** The paper number 1 of an issuer, given as a number, as a string and as
    a string with leading zeros, has one key; another number has
    another. *)
Example makeKey_of_numeric_strings :
  State.makeKey [Str "MagnetoCorp"; Num 1] = "MagnetoCorp:1" /\
  State.makeKey [Str "MagnetoCorp"; Str "1"] = "MagnetoCorp:1" /\
  State.makeKey [Str "MagnetoCorp"; Str "00001"] = "MagnetoCorp:1" /\
  State.makeKey [Str "MagnetoCorp"; Str "00010"] = "MagnetoCorp:10".
Proof. repeat split. Qed.

(** ** JSON text read back *)

Section Json.
#[local] Arguments String.append !s1 s2 : simpl nomatch.

Lemma append_assoc (a b c : string) : (a +:+ b) +:+ c = a +:+ (b +:+ c).
Proof. induction a as [|x a IH]; simpl; [reflexivity | now rewrite IH]. Qed.

Lemma length_append (a b : string) :
  String.length (a +:+ b) = (String.length a + String.length b)%nat.
Proof. induction a as [|x a IH]; simpl; [reflexivity | now rewrite IH]. Qed.

(** *** String literals *)

Lemma parse_chars_escape_char c s r :
  parse_chars s = Ok r ->
  parse_chars (escape_char c +:+ s) = Ok (String c (fst r), snd r).
Proof.
  intros H.
  destruct c as [[] [] [] [] [] [] [] []]; simpl; rewrite H; reflexivity.
Qed.

Lemma parse_chars_escape s rest :
  parse_chars (escape s +:+ String DQ rest) = Ok (s, rest).
Proof.
  induction s as [|c s IH]; simpl.
  - reflexivity.
  - rewrite append_assoc. now rewrite (parse_chars_escape_char c _ (s, rest)).
Qed.

Lemma parse_chars_quote s rest :
  parse_chars (escape s +:+ dq +:+ rest) = Ok (s, rest).
Proof. apply parse_chars_escape. Qed.

(** *** Integer literals *)

Lemma span_digits_end rest : number_end rest = true -> span_digits rest = ("", rest).
Proof.
  destruct rest as [|c rest]; simpl; [reflexivity|].
  destruct (is_digit c); [discriminate | reflexivity].
Qed.

Lemma span_digits_uint d rest :
  number_end rest = true ->
  span_digits (NilEmpty.string_of_uint d +:+ rest) =
  (NilEmpty.string_of_uint d, rest).
Proof.
  intros H. induction d; simpl;
    [now apply span_digits_end | now rewrite IHd ..].
Qed.

Lemma parse_digits_uint neg d rest :
  d <> Nil -> unorm d = d -> number_end rest = true ->
  parse_digits neg (NilEmpty.string_of_uint d +:+ rest) =
  Ok (Num (if neg then - Z.of_uint d else Z.of_uint d), rest).
Proof.
  intros Hd Hn He. unfold parse_digits.
  rewrite span_digits_uint by exact He. cbv beta iota.
  destruct (NilEmpty.string_of_uint d) eqn:Es.
  { destruct d; simpl in Es; congruence. }
  rewrite <- Es, NilEmpty.usu.
  destruct (uint_eq_dec (unorm d) d) as [_|Hne]; [|contradiction].
  destruct rest as [|c rest]; [reflexivity|].
  simpl in He.
  destruct (is_digit c); [discriminate|].
  simpl in He. destruct (Ascii.eqb c "." || Ascii.eqb c "e" || Ascii.eqb c "E");
    [discriminate | reflexivity].
Qed.

Lemma to_uint_normal p : unorm (Pos.to_uint p) = Pos.to_uint p.
Proof.
  rewrite <- (DecimalPos.Unsigned.to_of (Pos.to_uint p)).
  now rewrite DecimalPos.Unsigned.of_to.
Qed.

Lemma parse_value_num fuel z rest :
  number_end rest = true ->
  parse_value (S fuel) (dec z +:+ rest) = Ok (Num z, rest).
Proof.
  intros He. unfold dec. destruct z as [|p|p]; cbn [Z.to_int NilEmpty.string_of_int].
  - change (NilEmpty.string_of_uint zero +:+ rest) with (String "0" rest).
    simpl. change (String "0" rest) with (NilEmpty.string_of_uint zero +:+ rest).
    now rewrite parse_digits_uint.
  - pose proof (DecimalPos.Unsigned.to_uint_nonnil p) as Hnn.
    pose proof (to_uint_normal p) as Hnorm.
    pose proof (DecimalPos.Unsigned.of_to p) as Hof.
    assert (Hv : Z.of_uint (Pos.to_uint p) = Z.pos p).
    { unfold Z.of_uint. now rewrite Hof. }
    rewrite <- Hv.
    rewrite <- (parse_digits_uint false (Pos.to_uint p) rest Hnn Hnorm He).
    destruct (Pos.to_uint p); [contradiction | reflexivity ..].
  - pose proof (DecimalPos.Unsigned.to_uint_nonnil p) as Hnn.
    pose proof (to_uint_normal p) as Hnorm.
    pose proof (DecimalPos.Unsigned.of_to p) as Hof.
    assert (Hv : - Z.of_uint (Pos.to_uint p) = Z.neg p).
    { unfold Z.of_uint. now rewrite Hof. }
    rewrite <- Hv.
    rewrite <- (parse_digits_uint true (Pos.to_uint p) rest Hnn Hnorm He).
    reflexivity.
Qed.

(** *** Scalars *)

Lemma parse_value_scalar fuel v rest :
  scalar v = true -> number_end rest = true ->
  exists t, stringify v = Some t /\
            parse_value (S fuel) (t +:+ rest) = Ok (v, rest).
Proof.
  intros Hv He. destruct v as [| |[]|z|s| | |]; try discriminate Hv;
    simpl stringify; eexists; (split; [reflexivity|]).
  - reflexivity.
  - reflexivity.
  - reflexivity.
  - now apply parse_value_num.
  - unfold quote. simpl. rewrite append_assoc.
    now rewrite parse_chars_quote.
Qed.

(** *** Objects of scalars *)

Lemma stringify_Obj l :
  stringify (Obj l) = Some (String "{" (join "," (member_texts l) +:+ "}")).
Proof. reflexivity. Qed.

Lemma parse_members_S fuel acc s :
  parse_members (S fuel) acc s =
  match skip_ws s with
  | String c s1 =>
      if Ascii.eqb c DQ then
        rbind (parse_chars s1) (fun ks =>
          match skip_ws (snd ks) with
          | String ":" s3 =>
              rbind (parse_value fuel s3) (fun vs =>
                match skip_ws (snd vs) with
                | String "," s5 =>
                    parse_members fuel (set acc (fst ks) (fst vs)) s5
                | String "}" s5 =>
                    Ok (Obj (set acc (fst ks) (fst vs)), s5)
                | _ => Throw SyntaxError
                end)
          | _ => Throw SyntaxError
          end)
      else Throw SyntaxError
  | EmptyString => Throw SyntaxError
  end.
Proof. reflexivity. Qed.

Lemma parse_value_brace n x :
  parse_value (S n) (String "{" (String DQ x)) = parse_members n [] (String DQ x).
Proof. reflexivity. Qed.

#[local] Arguments parse_value : simpl never.
#[local] Arguments parse_members : simpl never.

Lemma parse_members_texts l : forall fuel acc rest,
  l <> [] ->
  forallb (fun kv => scalar (snd kv)) l = true ->
  (length l < fuel)%nat ->
  parse_members fuel acc (join "," (member_texts l) +:+ String "}" rest) =
  Ok (Obj (Object_assign acc l), rest).
Proof.
  induction l as [|[k v] l IH]; intros fuel acc rest Hne Hsc Hf; [contradiction|].
  simpl in Hsc. apply andb_true_iff in Hsc. destruct Hsc as [Hv Hsc].
  destruct fuel as [|[|fuel]]; simpl in Hf; try lia.
  destruct l as [|[k' v'] l].
  - destruct (parse_value_scalar fuel v (String "}" rest) Hv eq_refl) as (t & Ht & Hp).
    simpl member_texts. rewrite Ht. simpl join.
    rewrite parse_members_S.
    unfold quote. simpl. rewrite !append_assoc.
    rewrite parse_chars_quote. simpl.
    rewrite Hp. reflexivity.
  - assert (Hv' : scalar v' = true).
    { simpl in Hsc. now apply andb_true_iff in Hsc. }
    destruct (parse_value_scalar 0 v' "" Hv' eq_refl) as (t' & Ht' & _).
    change (member_texts ((k, v) :: (k', v') :: l))
      with (match stringify v with
            | Some t => (quote k +:+ ":" +:+ t) :: member_texts ((k', v') :: l)
            | None => member_texts ((k', v') :: l)
            end).
    specialize (IH (S fuel) (set acc k v) rest).
    remember (member_texts ((k', v') :: l)) as ms eqn:Hms.
    assert (Hne' : ms <> []).
    { subst ms. simpl. rewrite Ht'. discriminate. }
    destruct (parse_value_scalar fuel v
                (String "," (join "," ms +:+ String "}" rest))
                Hv eq_refl) as (t & Ht & Hp).
    rewrite Ht.
    assert (Hj : forall x, join "," (x :: ms) = x +:+ "," +:+ join "," ms).
    { intros x. destruct ms; [contradiction | reflexivity]. }
    rewrite Hj.
    rewrite parse_members_S.
    unfold quote at 1. simpl. rewrite !append_assoc.
    rewrite parse_chars_quote. simpl.
    rewrite Hp. simpl.
    rewrite IH; [reflexivity | discriminate | exact Hsc | simpl in *; lia].
Qed.

Lemma member_texts_length l :
  forallb (fun kv => scalar (snd kv)) l = true ->
  (length l <= String.length (join "," (member_texts l)))%nat.
Proof.
  induction l as [|[k v] l IH]; intros Hsc; [simpl; lia|].
  cbn [forallb snd] in Hsc.
  apply andb_true_iff in Hsc. destruct Hsc as [Hv Hsc].
  destruct (parse_value_scalar 0 v "" Hv eq_refl) as (t & Ht & _).
  cbn [member_texts length]. rewrite Ht. specialize (IH Hsc).
  set (x := quote k +:+ ":" +:+ t).
  assert (Hx : (1 <= String.length x)%nat) by (unfold x, quote; simpl; lia).
  clearbody x.
  destruct (member_texts l) as [|m ms].
  - simpl in IH. simpl. lia.
  - change (join "," (x :: m :: ms)) with (x +:+ "," +:+ join "," (m :: ms)).
    rewrite !length_append. lia.
Qed.

Lemma member_texts_start o :
  o <> [] ->
  forallb (fun kv => scalar (snd kv)) o = true ->
  exists x, join "," (member_texts o) +:+ "}" = String DQ x.
Proof.
  destruct o as [|[k v] o]; [contradiction|]. intros _ Hsc.
  cbn [forallb snd] in Hsc. apply andb_true_iff in Hsc. destruct Hsc as [Hv _].
  destruct (parse_value_scalar 0 v "" Hv eq_refl) as (t & Ht & _).
  cbn [member_texts]. rewrite Ht. unfold quote.
  destruct (member_texts o); simpl; eauto.
Qed.

(** *** Properties assigned one after the other *)

Lemma set_fresh o k v : has o k = false -> set o k v = (o ++ [(k, v)])%list.
Proof.
  induction o as [|[k' v'] o IH]; simpl; [reflexivity|].
  destruct (String.eqb k' k); [discriminate|]. intros H. now rewrite IH.
Qed.

Lemma has_app o o' k : has (o ++ o')%list k = has o k || has o' k.
Proof.
  induction o as [|[k' v'] o IH]; simpl; [reflexivity|].
  destruct (String.eqb k' k); [reflexivity | exact IH].
Qed.

Lemma Object_assign_fresh l : forall acc,
  distinct_keys l = true ->
  (forall k, has acc k = true -> has l k = false) ->
  Object_assign acc l = (acc ++ l)%list.
Proof.
  induction l as [|[k v] l IH]; intros acc Hd Hfresh.
  - unfold Object_assign. simpl. now rewrite app_nil_r.
  - cbn [distinct_keys] in Hd. apply andb_true_iff in Hd. destruct Hd as [Hk Hd].
    apply negb_true_iff in Hk.
    assert (Hacc : has acc k = false).
    { destruct (has acc k) eqn:E; [|reflexivity].
      apply Hfresh in E. cbn [has] in E. now rewrite String.eqb_refl in E. }
    unfold Object_assign. cbn [fold_left fst snd].
    rewrite set_fresh by exact Hacc.
    fold (Object_assign (acc ++ [(k, v)]) l). rewrite IH.
    + now rewrite <- app_assoc.
    + exact Hd.
    + intros k0 H0. rewrite has_app in H0. cbn [has] in H0.
      destruct (String.eqb k k0) eqn:E.
      * apply String.eqb_eq in E. now subst k0.
      * rewrite orb_false_r in H0. apply Hfresh in H0. cbn [has] in H0.
        now rewrite E in H0.
Qed.

(** [JSON.parse] reads back what [JSON.stringify] writes for an object of
    scalars with distinct keys. *)
Lemma JSON_roundtrip o :
  o <> [] ->
  forallb (fun kv => scalar (snd kv)) o = true ->
  distinct_keys o = true ->
  JSON_parse (JSON_stringify o) = Ok (Obj o).
Proof.
  intros Hne Hsc Hd. unfold JSON_stringify.
  rewrite stringify_Obj. unfold JSON_parse.
  destruct (member_texts_start o Hne Hsc) as [x Hx].
  pose proof (member_texts_length o Hsc) as Hlen.
  pose proof (parse_members_texts o
                (String.length (String "{" (join "," (member_texts o) +:+ "}")))
                [] "" Hne Hsc) as Hp.
  change (String "}" "") with "}" in Hp.
  assert (Hfuel : (length o <
            String.length (String "{" (join "," (member_texts o) +:+ "}")))%nat).
  { cbn [String.length]. rewrite length_append. lia. }
  specialize (Hp Hfuel). clear Hfuel Hlen.
  rewrite Hx in *. rewrite parse_value_brace, Hp.
  rewrite Object_assign_fresh;
    [reflexivity | exact Hd | intros k Hk; discriminate Hk].
Qed.

End Json.

(** ** Entities and their serialised form *)

Lemma has_set o k v k' : has (set o k v) k' = has o k' || String.eqb k k'.
Proof.
  induction o as [|[k0 v0] o IH]; cbn [set has].
  - destruct (String.eqb k k'); reflexivity.
  - destruct (String.eqb k0 k) eqn:E; cbn [has].
    + apply String.eqb_eq in E. subst k0.
      destruct (String.eqb k k'); [reflexivity | now rewrite orb_false_r].
    + rewrite IH. destruct (String.eqb k0 k'); reflexivity.
Qed.

Lemma distinct_keys_set o k v :
  distinct_keys o = true -> distinct_keys (set o k v) = true.
Proof.
  induction o as [|[k0 v0] o IH]; cbn [set distinct_keys has]; [reflexivity|].
  intros H. apply andb_true_iff in H. destruct H as [H1 H2].
  destruct (String.eqb k0 k) eqn:E; cbn [distinct_keys].
  - now rewrite H1, H2.
  - rewrite has_set, IH by exact H2. apply negb_true_iff in H1.
    rewrite H1. rewrite String.eqb_sym, E. reflexivity.
Qed.

Lemma scalars_set o k v :
  scalar v = true ->
  forallb (fun kv => scalar (snd kv)) o = true ->
  forallb (fun kv => scalar (snd kv)) (set o k v) = true.
Proof.
  intros Hv. induction o as [|[k0 v0] o IH]; cbn [set forallb snd].
  - now rewrite Hv.
  - intros H. apply andb_true_iff in H. destruct H as [H1 H2].
    destruct (String.eqb k0 k); cbn [forallb snd].
    + now rewrite Hv, H2.
    + now rewrite H1, IH.
Qed.

Lemma is_entity_set e k v :
  k <> "class" -> scalar v = true ->
  is_entity e = true -> is_entity (set e k v) = true.
Proof.
  intros Hk Hv. unfold is_entity. intros H.
  apply andb_true_iff in H. destruct H as [H Hsc].
  apply andb_true_iff in H. destruct H as [Hhead Hd].
  rewrite distinct_keys_set, scalars_set by assumption.
  rewrite !andb_true_r.
  destruct e as [|[k0 v0] e]; [discriminate|].
  apply andb_true_iff in Hhead. destruct Hhead as [Hk0 Hv0].
  apply String.eqb_eq in Hk0. subst k0. cbn [set].
  destruct (String.eqb "class" k) eqn:E.
  - apply String.eqb_eq in E. congruence.
  - now rewrite Hv0.
Qed.

Lemma is_entity_created i n o idt mdt fv :
  is_entity (created i n o idt mdt fv) = true.
Proof. reflexivity. Qed.

Lemma is_entity_advanced op o p :
  is_entity p = true -> is_entity (advanced op o p) = true.
Proof.
  intros H. unfold advanced.
  apply is_entity_set; [discriminate | reflexivity |].
  destruct (strict_eq _ _); [|exact H].
  apply is_entity_set; [discriminate | reflexivity | exact H].
Qed.

(** Every record of a ledger reached from the empty one is an entity. *)
Lemma exec_entities ts l :
  (forall k p, world l !! k = Some p -> is_entity p = true) ->
  forall k p, world (exec ts l) !! k = Some p -> is_entity p = true.
Proof.
  revert l. induction ts as [|t ts IH]; intros l Hl; simpl; [exact Hl|].
  apply IH. intros k p Hk. apply submit_origin in Hk.
  destruct Hk as [H|[H|H]].
  - eapply Hl; eauto.
  - destruct H as (i & n & o & idt & mdt & fv & ->). apply is_entity_created.
  - destruct H as (op & o & k0 & p0 & _ & Hp0 & _ & ->).
    apply is_entity_advanced. eapply Hl; eauto.
Qed.

Lemma reachable_entities ts k p :
  world (exec ts genesis) !! k = Some p -> is_entity p = true.
Proof.
  apply exec_entities. intros k' q. unfold genesis. simpl.
  now rewrite lookup_empty.
Qed.

(** The constructor applied to the fields of an entity gives the entity. *)
Lemma new_instance o v :
  distinct_keys (("class", v) :: o) = true ->
  CommercialPaper.new (("class", v) :: o) = ("class", v) :: o.
Proof.
  intros Hd. unfold CommercialPaper.new, State.new.
  change (Object_assign ?acc (("class", v) :: o))
    with (Object_assign (set acc "class" v) o).
  cbn [set]. rewrite String.eqb_refl.
  cbn [distinct_keys] in Hd. apply andb_true_iff in Hd. destruct Hd as [Hc Hd].
  rewrite Object_assign_fresh; [reflexivity | exact Hd |].
  intros k Hk. cbn [has] in Hk.
  destruct (String.eqb "class" k) eqn:E; [|discriminate Hk].
  apply String.eqb_eq in E. subst k. now apply negb_true_iff in Hc.
Qed.

(** C8, as amended.  For every entity, [toBuffer] followed by
    [deserialize] gives back an entity equal to the original in all fields,
    the type tag included. *)
Theorem deserialize_toBuffer e :
  is_entity e = true ->
  exists data, CommercialPaper.toBuffer e = Buf data /\
               CommercialPaper.deserialize data = Ok e.
Proof.
  unfold is_entity. intros H.
  apply andb_true_iff in H. destruct H as [H Hsc].
  apply andb_true_iff in H. destruct H as [Hhead Hd].
  destruct e as [|[k v] o]; [discriminate|].
  apply andb_true_iff in Hhead. destruct Hhead as [Hk Hv].
  apply String.eqb_eq in Hk. subst k.
  exists (JSON_stringify (("class", v) :: o)). split; [reflexivity|].
  unfold CommercialPaper.deserialize, State.deserializeClass.
  rewrite JSON_roundtrip by (auto; discriminate).
  cbn [get]. rewrite String.eqb_refl, Hv.
  now rewrite new_instance.
Qed.

Lemma deserialize_toBuffer_witness :
  exists data, CommercialPaper.toBuffer paper_confirmed = Buf data /\
               CommercialPaper.deserialize data = Ok paper_confirmed.
Proof.
  apply (deserialize_toBuffer paper_confirmed). reflexivity.
Defined.

(** C8, as claimed, fails for [fromBuffer]: applied to what [toBuffer]
    returns, it parses the text into a plain object, asks [Buffer.from] to
    make a buffer of that object, and [Buffer.from] raises a TypeError. *)
Lemma fromBuffer_rejects_toBuffer :
  is_entity paper_purchased = true /\
  CommercialPaper.toBuffer paper_purchased = Buf (JSON_stringify paper_purchased) /\
  CommercialPaper.fromBuffer (JSON_stringify paper_purchased) =
    Throw ERR_INVALID_ARG_TYPE /\
  CommercialPaper.fromBuffer (JSON_stringify paper_purchased) <> Ok paper_purchased.
Proof.
  split; [reflexivity|]. split; [reflexivity|].
  assert (H : CommercialPaper.fromBuffer (JSON_stringify paper_purchased) =
              Throw ERR_INVALID_ARG_TYPE) by (vm_compute; reflexivity).
  split; [exact H | rewrite H; discriminate].
Qed.

(** What [fromBuffer] does read back is the JSON text of the buffer, the
    form in which the result of a transaction reaches its caller. *)
Example fromBuffer_of_response :
  exists text, stringify (CommercialPaper.toBuffer paper_purchased) = Some text /\
               CommercialPaper.fromBuffer text = Ok paper_purchased.
Proof. eexists. split; [reflexivity | vm_compute; reflexivity]. Qed.

(** * Further properties of the code *)

(** ** The entity class *)

(** X1.  Each of the seven state setters leaves the entity in the state of
    its position in the enumeration, and after it the predicate of that
    state answers true and the six others answer false; this holds for
    [setDeposit], [setApprove] and their predicates too. *)
Theorem setter_selects_its_predicate p (i j : nat) setter predicate :
  state_setters !! i = Some setter ->
  state_predicates !! j = Some predicate ->
  exists p', send p setter [] = Ok (p', Undefined) /\
             get p' "currentState" = Num (Z.of_nat i + 1) /\
             send p' predicate [] = Ok (p', Bool (Nat.eqb i j)).
Proof.
  intros Hi Hj.
  repeat (destruct i as [|i]; [injection Hi as <- | simpl in Hi]);
    try discriminate Hi;
    repeat (destruct j as [|j]; [injection Hj as <- | simpl in Hj]);
    try discriminate Hj;
    (eexists; split; [reflexivity|]; split; [apply get_set_eq|]);
    unfold send, call;
    cbn [find_method CommercialPaper.methods app String.eqb Ascii.eqb Bool.eqb];
    cbv [mutator reader CommercialPaper.setPurchase CommercialPaper.setInvoice
         CommercialPaper.setIssue CommercialPaper.setConfirm
         CommercialPaper.setDeposit CommercialPaper.setApprove
         CommercialPaper.setPay CommercialPaper.isPurchase
         CommercialPaper.isInvoice CommercialPaper.isIssue
         CommercialPaper.isConfirm CommercialPaper.isDeposit
         CommercialPaper.isApprove CommercialPaper.isPay];
    rewrite get_set_eq; reflexivity.
Qed.

Lemma setter_selects_its_predicate_witness :
  exists p', send paper_purchased "setApprove" [] = Ok (p', Undefined) /\
             get p' "currentState" = Num (Z.of_nat 5 + 1) /\
             send p' "isPay" [] = Ok (p', Bool (Nat.eqb 5 6)).
Proof.
  apply (setter_selects_its_predicate paper_purchased 5 6); reflexivity.
Defined.

(** A state predicate never changes the entity, and it answers true
    exactly when [currentState] is the number of its state. *)
Lemma predicate_answer p (j : nat) predicate :
  state_predicates !! j = Some predicate ->
  exists b, send p predicate [] = Ok (p, Bool b) /\
            (b = true <-> get p "currentState" = Num (Z.of_nat j + 1)).
Proof.
  intros Hj.
  repeat (destruct j as [|j]; [injection Hj as <- | simpl in Hj]);
    try discriminate Hj;
    (eexists; split; [reflexivity|]); apply strict_eq_Num.
Qed.

(** X2.  The seven state predicates part the entities: whatever the
    entity, no two of them answer true, and one of them answers true
    exactly when [currentState] is one of the numbers 1 to 7; an entity
    without a state, or whose state is null, a string or another number,
    satisfies none. *)
Theorem predicates_are_exclusive p :
  (forall i j qi qj,
     state_predicates !! i = Some qi -> state_predicates !! j = Some qj ->
     send p qi [] = Ok (p, Bool true) -> send p qj [] = Ok (p, Bool true) ->
     i = j) /\
  ((exists q, In q state_predicates /\ send p q [] = Ok (p, Bool true)) <->
   (exists s, get p "currentState" = Num s /\ 1 <= s <= 7)).
Proof.
  split.
  - intros i j qi qj Hi Hj Ti Tj.
    destruct (predicate_answer p i qi Hi) as (bi & Ei & Hbi).
    destruct (predicate_answer p j qj Hj) as (bj & Ej & Hbj).
    rewrite Ei in Ti. rewrite Ej in Tj.
    injection Ti as ->. injection Tj as ->.
    pose proof (proj1 Hbi eq_refl) as Si. pose proof (proj1 Hbj eq_refl) as Sj.
    rewrite Si in Sj. injection Sj as Sj. lia.
  - split.
    + intros (q & Hin & Hq).
      apply list_elem_of_In, list_elem_of_lookup in Hin. destruct Hin as [j Hj].
      destruct (predicate_answer p j q Hj) as (b & E & Hb).
      rewrite E in Hq. injection Hq as ->.
      exists (Z.of_nat j + 1). split; [now apply Hb|].
      apply lookup_lt_Some in Hj. simpl in Hj. lia.
    + intros (s & Hs & Hle).
      assert (Hj : exists q, state_predicates !! Z.to_nat (s - 1) = Some q).
      { apply lookup_lt_is_Some. simpl. lia. }
      destruct Hj as [q Hj]. exists q.
      split; [eapply list_elem_of_In, list_elem_of_lookup_2; eauto|].
      destruct (predicate_answer p _ q Hj) as (b & E & Hb).
      rewrite E. replace b with true; [reflexivity|].
      symmetry. apply Hb. rewrite Hs. f_equal. lia.
Qed.

(** Case analysis on the name of a method looked up in a method table. *)
Ltac method_cases H name :=
  repeat match type of H with
         | context [String.eqb ?s name] =>
             let E := fresh "E" in
             destruct (String.eqb s name) eqn:E;
             [apply String.eqb_eq in E; subst name | clear E]
         end.

(** X3.  Whatever method of the entity class is called, with whatever
    arguments, the entity changes in at most one property: [setIssuer]
    writes [issuer], [setOwner] writes [owner], a state setter writes
    [currentState], and every other method leaves the entity as it was. *)
Theorem methods_write_one_field p name args p' r :
  send p name args = Ok (p', r) ->
  (written_field name = None -> p' = p) /\
  (forall f, written_field name <> Some f -> get p' f = get p f).
Proof.
  unfold send, call. intros H.
  destruct (find_method name CommercialPaper.methods) as [m|] eqn:Hm;
    [|discriminate H].
  injection H as H.
  cbn [find_method CommercialPaper.methods State.methods app] in Hm.
  method_cases Hm name; try discriminate Hm;
    injection Hm as <-; injection H as <- <-;
    (split; [intros Hw; first [reflexivity | discriminate Hw]|]);
    intros f Hf; try reflexivity;
    cbv [mutator mutator1 fst]; apply get_set_ne; intros <-; apply Hf;
    reflexivity.
Qed.

Lemma methods_write_one_field_witness :
  (written_field "setConfirm" = None ->
   set paper_purchased "currentState" (Num 4) = paper_purchased) /\
  (forall f, written_field "setConfirm" <> Some f ->
     get (set paper_purchased "currentState" (Num 4)) f = get paper_purchased f).
Proof.
  apply (methods_write_one_field paper_purchased "setConfirm" [] _ Undefined).
  reflexivity.
Defined.

Lemma keys_set o k v :
  map fst (set o k v) = if has o k then map fst o else (map fst o ++ [k])%list.
Proof.
  induction o as [|[k' v'] o IH]; cbn [set has map fst app]; [reflexivity|].
  destruct (String.eqb k' k); cbn [map fst]; [reflexivity|].
  rewrite IH. now destruct (has o k).
Qed.

(** X4.  A setter returns nothing and assigns in place: a property the
    entity already has keeps its position among the properties, a new one
    is added last; [setOwner] and [setIssuer] store their first argument,
    which reads back as given (undefined when the call has none). *)
Theorem setters_assign_in_place p name args p' r f :
  send p name args = Ok (p', r) ->
  written_field name = Some f ->
  r = Undefined /\
  map fst p' = (if has p f then map fst p else map fst p ++ [f])%list /\
  (name = "setOwner" \/ name = "setIssuer" -> get p' f = arg 0 args).
Proof.
  unfold send, call. intros H.
  destruct (find_method name CommercialPaper.methods) as [m|] eqn:Hm;
    [|discriminate H].
  injection H as H.
  cbn [find_method CommercialPaper.methods State.methods app] in Hm.
  method_cases Hm name; try discriminate Hm;
    injection Hm as <-; injection H as <- <-;
    intros Hw; try discriminate Hw; injection Hw as <-;
    (split; [reflexivity|]); (split; [apply keys_set|]);
    intros [E|E]; try discriminate E; apply get_set_eq.
Qed.

Lemma setters_assign_in_place_witness :
  Undefined = Undefined /\
  map fst (set paper_purchased "owner" (Str "DigiBank")) =
    (if has paper_purchased "owner" then map fst paper_purchased
     else map fst paper_purchased ++ ["owner"])%list /\
  ("setOwner" = "setOwner" \/ "setOwner" = "setIssuer" ->
   get (set paper_purchased "owner" (Str "DigiBank")) "owner" =
   arg 0 [Str "DigiBank"]).
Proof.
  apply (setters_assign_in_place paper_purchased "setOwner" [Str "DigiBank"]);
    reflexivity.
Defined.

Lemma get_Object_assign_absent l : forall acc k,
  has l k = false -> get (Object_assign acc l) k = get acc k.
Proof.
  induction l as [|[k0 v0] l IH]; intros acc k Hk; [reflexivity|].
  cbn [has] in Hk. destruct (String.eqb k0 k) eqn:E; [discriminate|].
  change (Object_assign acc ((k0, v0) :: l))
    with (Object_assign (set acc k0 v0) l).
  rewrite IH by exact Hk. apply get_set_ne. now apply String.eqb_neq.
Qed.

Lemma get_Object_assign l : forall acc k,
  distinct_keys l = true -> has l k = true ->
  get (Object_assign acc l) k = get l k.
Proof.
  induction l as [|[k0 v0] l IH]; intros acc k Hd Hk; [discriminate|].
  cbn [distinct_keys] in Hd. apply andb_true_iff in Hd. destruct Hd as [Hk0 Hd].
  apply negb_true_iff in Hk0.
  change (Object_assign acc ((k0, v0) :: l))
    with (Object_assign (set acc k0 v0) l).
  cbn [has get] in *. destruct (String.eqb k0 k) eqn:E.
  - apply String.eqb_eq in E. subst k0.
    rewrite get_Object_assign_absent by exact Hk0. apply get_set_eq.
  - now apply IH.
Qed.

(** X5.  The constructor copies the properties of its argument onto the
    instance: every property of the argument other than [__proto__], which
    an assignment hands to the prototype and which is therefore not
    copied, reads back from the instance as it was given; this includes a
    [class] property of the argument, which replaces the tag the base
    class has set. *)
Theorem constructor_copies_fields obj k :
  distinct_keys obj = true -> has obj k = true -> k <> "__proto__" ->
  get (CommercialPaper.new obj) k = get obj k.
Proof. intros Hd Hk _. now apply get_Object_assign. Qed.

Lemma constructor_copies_fields_witness :
  get (CommercialPaper.new [("class", Str "other"); ("issuer", Str "MagnetoCorp")])
      "class" =
  get [("class", Str "other"); ("issuer", Str "MagnetoCorp")] "class".
Proof.
  apply (constructor_copies_fields
           [("class", Str "other"); ("issuer", Str "MagnetoCorp")] "class");
    first [reflexivity | discriminate].
Defined.

(** ** The serialised form and the response *)

Section Response.
#[local] Arguments String.append !s1 s2 : simpl nomatch.
#[local] Arguments parse_value : simpl never.
#[local] Arguments parse_members : simpl never.
#[local] Arguments parse_elements : simpl never.

Lemma parse_value_S fuel s :
  parse_value (S fuel) s =
  match skip_ws s with
  | EmptyString => Throw SyntaxError
  | String c s' =>
      if Ascii.eqb c "{" then
        match skip_ws s' with
        | String "}" rest => Ok (Obj [], rest)
        | _ => parse_members fuel [] s'
        end
      else if Ascii.eqb c "[" then
        match skip_ws s' with
        | String "]" rest => Ok (Arr [], rest)
        | _ => parse_elements fuel [] s'
        end
      else if Ascii.eqb c DQ then
        rbind (parse_chars s') (fun p => Ok (Str (fst p), snd p))
      else if Ascii.eqb c "-" || is_digit c then parse_number (String c s')
      else if Ascii.eqb c "t" then parse_literal "true" (Bool true) (String c s')
      else if Ascii.eqb c "f" then parse_literal "false" (Bool false) (String c s')
      else if Ascii.eqb c "n" then parse_literal "null" Null (String c s')
      else Throw SyntaxError
  end.
Proof. reflexivity. Qed.

Lemma parse_elements_S fuel acc s :
  parse_elements (S fuel) acc s =
  rbind (parse_value fuel s) (fun vs =>
    match skip_ws (snd vs) with
    | String "," s' => parse_elements fuel (acc ++ [fst vs]) s'
    | String "]" s' => Ok (Arr (acc ++ [fst vs]), s')
    | _ => Throw SyntaxError
    end).
Proof. reflexivity. Qed.

(** The elements of an array of integers. *)
Lemma parse_elements_numbers zs : forall fuel acc rest,
  zs <> [] -> (length zs < fuel)%nat ->
  parse_elements fuel acc (join "," (map dec zs) +:+ String "]" rest) =
  Ok (Arr (acc ++ map Num zs), rest).
Proof.
  induction zs as [|z zs IH]; intros fuel acc rest Hne Hf; [contradiction|].
  destruct fuel as [|[|fuel]]; simpl in Hf; try lia.
  rewrite parse_elements_S.
  destruct zs as [|z' zs].
  - simpl join. rewrite parse_value_num by reflexivity. reflexivity.
  - change (join "," (map dec (z :: z' :: zs)))
      with (dec z +:+ "," +:+ join "," (map dec (z' :: zs))).
    rewrite !append_assoc.
    rewrite parse_value_num by reflexivity. simpl.
    rewrite IH; [|discriminate|simpl in *; lia].
    now rewrite <- app_assoc.
Qed.

(** The number of a byte starts with a digit. *)
Lemma dec_byte_start c :
  exists d ds, dec (Z.of_N (N_of_ascii c)) = String d ds /\
               is_ws d = false /\ Ascii.eqb d "]" = false.
Proof.
  destruct c as [[] [] [] [] [] [] [] []];
    vm_compute; eexists _, _; repeat split.
Qed.

Lemma match_not_bracket {A} (d : ascii) (x y : A) :
  Ascii.eqb d "]" = false ->
  match d with "]"%char => x | _ => y end = y.
Proof.
  destruct d as [[] [] [] [] [] [] [] []]; intros H;
    try reflexivity; discriminate H.
Qed.

Lemma fromArrayLike_bytes b :
  fromArrayLike (map Num (byte_values b)) = Ok b.
Proof.
  unfold byte_values. induction b as [|c b IH]; [reflexivity|].
  cbn [list_ascii_of_string map fromArrayLike toUint8 rbind].
  fold (byte_values b). unfold byte_values at 1. rewrite IH. cbn [rbind].
  pose proof (N_ascii_bounded c) as Hc.
  rewrite Z.mod_small by lia. now rewrite N2Z.id, ascii_N_embedding.
Qed.

Lemma join_dec_length zs :
  (length zs <= String.length (join "," (map dec zs) +:+ "]"))%nat.
Proof.
  induction zs as [|z zs IH]; [simpl; lia|].
  destruct zs as [|z' zs].
  - simpl. rewrite length_append. simpl. lia.
  - change (join "," (map dec (z :: z' :: zs)))
      with (dec z +:+ "," +:+ join "," (map dec (z' :: zs))).
    rewrite !append_assoc, length_append.
    change ((",") +:+ ?x) with (String "," x). cbn [String.length].
    simpl length in *. lia.
Qed.

Lemma stringify_Buf b :
  stringify (Buf b) =
  Some (buffer_prefix +:+ join "," (map dec (byte_values b)) +:+ "]}").
Proof. unfold byte_values. rewrite map_map. reflexivity. Qed.

Lemma parse_value_buffer fuel zs d ds rest :
  zs <> [] ->
  join "," (map dec zs) +:+ "]}" +:+ rest = String d ds ->
  is_ws d = false -> Ascii.eqb d "]" = false ->
  (length zs + 4 < fuel)%nat ->
  parse_value fuel (buffer_prefix +:+ join "," (map dec zs) +:+ "]}" +:+ rest) =
  Ok (Obj [("type", Str "Buffer"); ("data", Arr (map Num zs))], rest).
Proof.
  intros Hne Hd Hws Hbr Hf.
  destruct fuel as [|[|[|[|fuel]]]]; try lia.
  remember (join "," (map dec zs) +:+ "]}" +:+ rest) as tail eqn:Ht.
  rewrite parse_value_S. simpl.
  rewrite parse_members_S. simpl.
  rewrite parse_members_S. simpl.
  rewrite parse_value_S. simpl.
  rewrite Hd. simpl. rewrite Hws.
  rewrite (match_not_bracket d _ _ Hbr). rewrite <- Hd, Ht.
  change ("]}" +:+ rest) with (String "]" (String "}" rest)).
  rewrite parse_elements_numbers; [reflexivity | exact Hne | lia].
Qed.

(** [JSON.parse] reads the JSON form of a non-empty buffer back as the
    object with the properties [type] and [data]. *)
Lemma JSON_parse_Buf c b :
  JSON_parse (buffer_prefix +:+
              join "," (map dec (byte_values (String c b))) +:+ "]}") =
  Ok (Obj [("type", Str "Buffer");
           ("data", Arr (map Num (byte_values (String c b))))]).
Proof.
  unfold JSON_parse.
  destruct (dec_byte_start c) as (d & ds & Hd & Hws & Hbr).
  pose proof (join_dec_length (byte_values (String c b))) as Hlen.
  set (zs := byte_values (String c b)) in *.
  assert (Hne : zs <> []) by (unfold zs, byte_values; simpl; discriminate).
  assert (Hstart : exists ds',
             join "," (map dec zs) +:+ "]}" +:+ "" = String d ds').
  { unfold zs, byte_values. cbn [list_ascii_of_string map]. rewrite Hd.
    destruct (map _ (list_ascii_of_string b)); simpl; eauto. }
  destruct Hstart as [ds' Hstart].
  pose proof (parse_value_buffer
                (S (String.length
                      (buffer_prefix +:+ join "," (map dec zs) +:+ "]}")))
                zs d ds' "" Hne Hstart Hws Hbr) as Hp.
  change ("]}" +:+ "") with "]}" in Hp.
  rewrite Hp; [reflexivity|].
  rewrite length_append in Hlen. rewrite !length_append.
  simpl String.length in *. lia.
Qed.

Lemma Buffer_from_JSON_form l :
  Buffer_from (Obj [("type", Str "Buffer"); ("data", Arr l)]) = fromArrayLike l.
Proof. reflexivity. Qed.

Lemma JSON_stringify_nonempty o : exists c b, JSON_stringify o = String c b.
Proof. unfold JSON_stringify. rewrite stringify_Obj. eauto. Qed.

End Response.

Lemma has_false_get o k : has o k = false -> get o k = Undefined.
Proof.
  induction o as [|[k' v] o IH]; simpl; [reflexivity|].
  destruct (String.eqb k' k); [discriminate | exact IH].
Qed.

Lemma get_defined_has o k : get o k <> Undefined -> has o k = true.
Proof.
  intros H. destruct (has o k) eqn:E; [reflexivity|].
  now apply has_false_get in E.
Qed.

Lemma get_scalar o k :
  forallb (fun kv => scalar (snd kv)) o = true ->
  get o k = Undefined \/ scalar (get o k) = true.
Proof.
  induction o as [|[k' v] o IH]; simpl; [auto|].
  intros H. apply andb_true_iff in H. destruct H as [Hv Ho].
  destruct (String.eqb k' k); auto.
Qed.

Lemma JSON_parse_stringify e :
  is_entity e = true -> JSON_parse (JSON_stringify e) = Ok (Obj e).
Proof.
  unfold is_entity. intros H.
  apply andb_true_iff in H. destruct H as [H Hsc].
  apply andb_true_iff in H. destruct H as [Hhead Hd].
  apply JSON_roundtrip; auto. destruct e; discriminate.
Qed.

(** [deserialize] reads back the text [JSON.stringify] writes for an
    entity. *)
Lemma deserialize_stringify e :
  is_entity e = true ->
  CommercialPaper.deserialize (JSON_stringify e) = Ok e.
Proof.
  intros He. unfold CommercialPaper.deserialize, State.deserializeClass.
  rewrite JSON_parse_stringify by exact He.
  unfold is_entity in He.
  apply andb_true_iff in He. destruct He as [He _].
  apply andb_true_iff in He. destruct He as [Hhead Hd].
  destruct e as [|[k v] o]; [discriminate|].
  apply andb_true_iff in Hhead. destruct Hhead as [Hk Hv].
  apply String.eqb_eq in Hk. subst k.
  cbn [get]. rewrite String.eqb_refl, Hv.
  now rewrite new_instance.
Qed.

(** [fromBuffer] applied to the JSON form of the buffer of an entity. *)
Lemma fromBuffer_JSON_form e :
  is_entity e = true ->
  CommercialPaper.fromBuffer
    (buffer_prefix +:+
     join "," (map dec (byte_values (JSON_stringify e))) +:+ "]}") = Ok e.
Proof.
  intros He. destruct (JSON_stringify_nonempty e) as (c & b & Hb).
  unfold CommercialPaper.fromBuffer. rewrite Hb, JSON_parse_Buf.
  cbn [rbind]. rewrite Buffer_from_JSON_form, fromArrayLike_bytes.
  cbn [rbind]. rewrite <- Hb. now apply deserialize_stringify.
Qed.

(** X6.  [fromBuffer] reads the JSON text of the buffer that [toBuffer]
    returns (the form in which a buffer travels as JSON, an object with
    the properties [type] and [data]) back as the entity, equal to the
    original in every property. *)
Theorem fromBuffer_reads_response e :
  is_entity e = true ->
  exists text, stringify (CommercialPaper.toBuffer e) = Some text /\
               CommercialPaper.fromBuffer text = Ok e.
Proof.
  intros He. unfold CommercialPaper.toBuffer. rewrite stringify_Buf.
  eexists. split; [reflexivity|]. now apply fromBuffer_JSON_form.
Qed.

Lemma fromBuffer_reads_response_witness :
  exists text, stringify (CommercialPaper.toBuffer paper_confirmed) = Some text /\
               CommercialPaper.fromBuffer text = Ok paper_confirmed.
Proof. apply (fromBuffer_reads_response paper_confirmed). reflexivity. Defined.

(** X7.  [fromBuffer] applied directly to the bytes [toBuffer] returns
    fails for every entity (without a [length] property): the text parses
    to a plain object, of which [Buffer.from] refuses to make a buffer. *)
Theorem fromBuffer_rejects_serialised_entity e :
  is_entity e = true -> has e "length" = false ->
  exists data, CommercialPaper.toBuffer e = Buf data /\
               CommercialPaper.fromBuffer data = Throw ERR_INVALID_ARG_TYPE.
Proof.
  intros He Hl. exists (JSON_stringify e). split; [reflexivity|].
  unfold CommercialPaper.fromBuffer. rewrite JSON_parse_stringify by exact He.
  unfold is_entity in He. apply andb_true_iff in He. destruct He as [_ Hsc].
  cbn [rbind Buffer_from]. rewrite (has_false_get _ _ Hl). cbn [strict_eq negb].
  destruct (strict_eq (get e "type") (Str "Buffer")); [|reflexivity].
  destruct (get_scalar e "data" Hsc) as [H|H].
  - now rewrite H.
  - destruct (get e "data"); try discriminate H; reflexivity.
Qed.

Lemma fromBuffer_rejects_serialised_entity_witness :
  exists data, CommercialPaper.toBuffer paper_issued = Buf data /\
               CommercialPaper.fromBuffer data = Throw ERR_INVALID_ARG_TYPE.
Proof.
  apply (fromBuffer_rejects_serialised_entity paper_issued); reflexivity.
Defined.

(** X8.  [toBuffer] loses nothing: two different entities have different
    serialised forms. *)
Theorem toBuffer_injective e1 e2 :
  is_entity e1 = true -> is_entity e2 = true -> e1 <> e2 ->
  CommercialPaper.toBuffer e1 <> CommercialPaper.toBuffer e2.
Proof.
  intros H1 H2 Hne H. apply Hne.
  assert (Ht : JSON_stringify e1 = JSON_stringify e2)
    by (unfold CommercialPaper.toBuffer in H; congruence).
  apply JSON_parse_stringify in H1, H2. rewrite Ht in H1. congruence.
Qed.

Lemma toBuffer_injective_witness :
  CommercialPaper.toBuffer paper_issued <> CommercialPaper.toBuffer paper_confirmed.
Proof.
  apply (toBuffer_injective paper_issued paper_confirmed);
    [reflexivity | reflexivity | discriminate].
Defined.

(** ** What [invoice], [issue] and [confirm] do *)

(** An entity that has an owner and a state keeps its properties, in
    their order, when both are assigned. *)
Lemma keys_advanced op o p :
  get p "owner" <> Undefined -> get p "currentState" <> Undefined ->
  map fst (advanced op o p) = map fst p.
Proof.
  intros Ho Hs. apply get_defined_has in Ho, Hs. unfold advanced.
  rewrite keys_set. destruct (strict_eq _ _).
  - rewrite has_set, Ho, keys_set, Hs. reflexivity.
  - now rewrite Ho.
Qed.

(** X9.  [invoice], [issue] and [confirm], called by the owner on a stored
    entity in the state the operation tests first, succeed: the record is
    replaced by the entity with the next state and the new owner, every
    other property and the order of the properties unchanged; the value
    returned is the serialised form of that record, and the state has been
    assigned once. *)
Theorem working_ops_advance op i n c o a d l p :
  working op = true ->
  world l !! CommercialPaperContract.makeKey [Str i; Num n] = Some p ->
  PaperList.keyOf p = CommercialPaperContract.makeKey [Str i; Num n] ->
  get p "owner" = Str c ->
  get p "currentState" = Num (Spec.predecessor op) ->
  let r := run op i n c o a d l in
  exists p',
    fst r = Ok (CommercialPaper.toBuffer p') /\
    world (snd r) =
      <[CommercialPaperContract.makeKey [Str i; Num n] := p']> (world l) /\
    get p' "currentState" = Num (Spec.predecessor op + 1) /\
    get p' "owner" = Str o /\
    same_frame p p' /\
    map fst p' = map fst p /\
    exists cs, calls (snd r) = (calls l ++ cs)%list /\ assignments cs = 1%nat.
Proof.
  intros Hop Hp Hk Ho Hs r. subst r.
  rewrite (working_advance op i n c o a d l p Hop Hp Hk Ho Hs).
  cbn [fst snd world calls].
  pose proof (advanced_same_frame op o p) as Hf.
  pose proof (keys_advanced op o p) as Hkeys.
  unfold advanced in Hf, Hkeys. rewrite Hs in Hf, Hkeys.
  rewrite (proj2 (strict_eq_Num _ _) eq_refl) in Hf, Hkeys.
  eexists. split; [reflexivity|]. split; [reflexivity|].
  split; [rewrite get_set_ne by discriminate; rewrite <- target_succ;
          apply get_set_eq|].
  split; [apply get_set_eq|]. split; [exact Hf|].
  split; [apply Hkeys; [rewrite Ho | ]; discriminate|].
  eexists. split; [reflexivity|].
  destruct op; try discriminate Hop; reflexivity.
Qed.

Lemma working_ops_advance_witness :
  let r := run Issue "MagnetoCorp" 1 "DigiBank" "Hedgematic" 4910000
             "2020-06-02" ledger_invoiced in
  exists p',
    fst r = Ok (CommercialPaper.toBuffer p') /\
    world (snd r) =
      <[CommercialPaperContract.makeKey [Str "MagnetoCorp"; Num 1] := p']>
        (world ledger_invoiced) /\
    get p' "currentState" = Num (Spec.predecessor Issue + 1) /\
    get p' "owner" = Str "Hedgematic" /\
    same_frame paper_invoiced p' /\
    map fst p' = map fst paper_invoiced /\
    exists cs, calls (snd r) = (calls ledger_invoiced ++ cs)%list /\
               assignments cs = 1%nat.
Proof.
  apply (working_ops_advance Issue "MagnetoCorp" 1 "DigiBank" "Hedgematic"
           4910000 "2020-06-02" ledger_invoiced paper_invoiced); reflexivity.
Defined.

(** X10.  [invoice], [issue] and [confirm], called by the owner on a stored
    entity that is already in the state the operation leads to, only hand
    it over: the record is replaced by the entity with the new owner and
    nothing else changed, no state is assigned, and the value returned is
    the serialised form of that record. *)
Theorem working_ops_transfer op i n c o a d l p :
  working op = true ->
  world l !! CommercialPaperContract.makeKey [Str i; Num n] = Some p ->
  PaperList.keyOf p = CommercialPaperContract.makeKey [Str i; Num n] ->
  get p "owner" = Str c ->
  get p "currentState" = Num (Spec.target op) ->
  let r := run op i n c o a d l in
  let p' := CommercialPaper.setOwner p (Str o) in
  fst r = Ok (CommercialPaper.toBuffer p') /\
  world (snd r) =
    <[CommercialPaperContract.makeKey [Str i; Num n] := p']> (world l) /\
  (forall f, f <> "owner" -> get p' f = get p f) /\
  map fst p' = map fst p /\
  exists cs, calls (snd r) = (calls l ++ cs)%list /\ assignments cs = 0%nat.
Proof.
  intros Hop Hp Hk Ho Hs r p'. subst r.
  rewrite (working_transfer op i n c o a d l p Hop Hp Hk Ho Hs).
  cbn [fst snd world calls].
  split; [reflexivity|]. split; [reflexivity|].
  split; [intros f Hf; apply get_set_ne; congruence|].
  split.
  - unfold p', CommercialPaper.setOwner.
    rewrite keys_set, get_defined_has; [reflexivity|].
    rewrite Ho. discriminate.
  - eexists. split; [reflexivity|].
    destruct op; try discriminate Hop; reflexivity.
Qed.

Lemma working_ops_transfer_witness :
  let r := run Issue "MagnetoCorp" 1 "Hedgematic" "BigFund" 4910000 "2020-06-02"
             ledger_issued in
  let p' := CommercialPaper.setOwner paper_issued (Str "BigFund") in
  fst r = Ok (CommercialPaper.toBuffer p') /\
  world (snd r) =
    <[CommercialPaperContract.makeKey [Str "MagnetoCorp"; Num 1] := p']>
      (world ledger_issued) /\
  (forall f, f <> "owner" -> get p' f = get paper_issued f) /\
  map fst p' = map fst paper_issued /\
  exists cs, calls (snd r) = (calls ledger_issued ++ cs)%list /\
             assignments cs = 0%nat.
Proof.
  apply (working_ops_transfer Issue "MagnetoCorp" 1 "Hedgematic" "BigFund"
           4910000 "2020-06-02" ledger_issued paper_issued); reflexivity.
Defined.

(** X11.  [invoice], [issue] and [confirm], called by the owner on a stored
    entity in any other state, throw the error whose message names the
    paper, the state expected and the state found; nothing is written, and
    neither a state setter nor an update of the ledger has been called. *)
Theorem working_ops_reject op i n c o a d l p :
  working op = true ->
  world l !! CommercialPaperContract.makeKey [Str i; Num n] = Some p ->
  get p "owner" = Str c ->
  get p "currentState" <> Num (Spec.predecessor op) ->
  get p "currentState" <> Num (Spec.target op) ->
  let r := run op i n c o a d l in
  fst r = Throw (Error ("Paper " +:+ i +:+ dec n +:+ " is not " +:+ expected op
                        +:+ ". Current state = " +:+
                        ToString (get p "currentState"))) /\
  world (snd r) = world l /\
  exists cs, calls (snd r) = (calls l ++ cs)%list /\
             assignments cs = 0%nat /\ existsb writes cs = false.
Proof.
  intros Hop Hp Ho HP HT r. subst r.
  rewrite (working_reject op i n c o a d l p Hop Hp Ho HP HT).
  cbn [fst snd]. split; [reflexivity|]. split; [reflexivity|].
  eexists. split; [reflexivity|].
  destruct op; try discriminate Hop; split; reflexivity.
Qed.

Lemma working_ops_reject_witness :
  let r := run Confirm "MagnetoCorp" 1 "MagnetoCorp" "BigFund" 4920000
             "2020-06-03" ledger_purchased in
  fst r = Throw (Error ("Paper " +:+ "MagnetoCorp" +:+ dec 1 +:+ " is not " +:+
                        expected Confirm +:+ ". Current state = " +:+
                        ToString (get paper_purchased "currentState"))) /\
  world (snd r) = world ledger_purchased /\
  exists cs, calls (snd r) = (calls ledger_purchased ++ cs)%list /\
             assignments cs = 0%nat /\ existsb writes cs = false.
Proof.
  apply (working_ops_reject Confirm "MagnetoCorp" 1 "MagnetoCorp" "BigFund"
           4920000 "2020-06-03" ledger_purchased paper_purchased);
    first [reflexivity | discriminate].
Defined.

(** X12.  An advancing operation succeeds only on an entity that was
    stored at the key of its issuer and paper number, owned by the caller
    and in the state the operation tests first or the state it leads to;
    afterwards the record is in the state it leads to and owned by the new
    owner, the value returned is its serialised form, and no other record
    has changed. *)
Theorem success_means_advance_or_transfer op i n c o a d l b l' :
  well_keyed l ->
  run op i n c o a d l = (Ok b, l') ->
  let key := CommercialPaperContract.makeKey [Str i; Num n] in
  exists p p',
    world l !! key = Some p /\
    get p "owner" = Str c /\
    (get p "currentState" = Num (Spec.predecessor op) \/
     get p "currentState" = Num (Spec.target op)) /\
    world l' !! key = Some p' /\
    get p' "currentState" = Num (Spec.target op) /\
    get p' "owner" = Str o /\
    b = CommercialPaper.toBuffer p' /\
    (forall k, k <> key -> world l' !! k = world l !! k).
Proof.
  intros Hwk H key. apply run_success in H.
  destruct H as (p & Hw & Hp & Ho & Hs & _ & -> & Hworld & _).
  fold key in Hp. pose proof (Hwk _ _ Hp) as Hk. rewrite Hk in Hworld.
  exists p, (advanced op o p). rewrite Hworld.
  split; [exact Hp|]. split; [exact Ho|]. split; [exact Hs|].
  split; [apply lookup_insert_eq|].
  split.
  { rewrite get_advanced_state. destruct Hs as [Hs|Hs]; rewrite Hs; simpl.
    - now rewrite Z.eqb_refl.
    - destruct (Z.eqb_spec (Spec.target op) (Spec.predecessor op)); reflexivity. }
  split; [apply get_set_eq|]. split; [reflexivity|].
  intros k Hne. now apply lookup_insert_ne.
Qed.

Lemma success_means_advance_or_transfer_witness :
  let key := CommercialPaperContract.makeKey [Str "MagnetoCorp"; Num 1] in
  exists p p',
    world ledger_purchased !! key = Some p /\
    get p "owner" = Str "MagnetoCorp" /\
    (get p "currentState" = Num (Spec.predecessor Invoice) \/
     get p "currentState" = Num (Spec.target Invoice)) /\
    world ledger_invoiced !! key = Some p' /\
    get p' "currentState" = Num (Spec.target Invoice) /\
    get p' "owner" = Str "DigiBank" /\
    CommercialPaper.toBuffer paper_invoiced = CommercialPaper.toBuffer p' /\
    (forall k, k <> key -> world ledger_invoiced !! k = world ledger_purchased !! k).
Proof.
  apply (success_means_advance_or_transfer Invoice "MagnetoCorp" 1 "MagnetoCorp"
           "DigiBank" 4900000 "2020-06-01" ledger_purchased
           (CommercialPaper.toBuffer paper_invoiced) ledger_invoiced).
  - apply exec_well_keyed, genesis_well_keyed.
  - vm_compute. reflexivity.
Defined.

(** ** Transactions one after the other *)

(** X13.  A transaction that throws has written nothing: the world state
    is what it was before the call, for each of the seven operations and
    whatever the error. *)
Theorem failed_transaction_writes_nothing t l e :
  fst (submit t l) = Throw e -> world (snd (submit t l)) = world l.
Proof.
  destruct (submit t l) as [r l'] eqn:H. simpl. intros ->.
  now apply submit_failure in H.
Qed.

Lemma failed_transaction_writes_nothing_witness :
  world (snd (submit trade_issue ledger_purchased)) = world ledger_purchased.
Proof.
  apply (failed_transaction_writes_nothing trade_issue ledger_purchased
           (Error "Paper MagnetoCorp1 is not owned by DigiBank")).
  vm_compute. reflexivity.
Defined.

(** X14.  A transaction that has succeeded cannot be replayed: when the
    new owner differs from the caller, the same call submitted again is
    stopped by the owner check and changes nothing. *)
Theorem replay_is_rejected op i n c o a d l b l' :
  well_keyed l -> c <> o ->
  run op i n c o a d l = (Ok b, l') ->
  fst (run op i n c o a d l') = Throw (OwnerMismatch i n c) /\
  world (snd (run op i n c o a d l')) = world l'.
Proof.
  intros Hwk Hne H. apply run_success in H.
  destruct H as (p & _ & Hp & _ & _ & _ & _ & Hworld & _).
  rewrite (Hwk _ _ Hp) in Hworld.
  assert (Hl : world l' !! CommercialPaperContract.makeKey [Str i; Num n] =
               Some (advanced op o p)) by (rewrite Hworld; apply lookup_insert_eq).
  assert (Ho : strict_eq (get (advanced op o p) "owner") (Str c) = false).
  { unfold advanced. rewrite get_set_eq. apply String.eqb_neq. congruence. }
  rewrite run_outcome. unfold outcome. rewrite Hl, Ho. split; reflexivity.
Qed.

Lemma replay_is_rejected_witness :
  fst (run Invoice "MagnetoCorp" 1 "MagnetoCorp" "DigiBank" 4900000 "2020-06-01"
         ledger_invoiced) =
    Throw (OwnerMismatch "MagnetoCorp" 1 "MagnetoCorp") /\
  world (snd (run Invoice "MagnetoCorp" 1 "MagnetoCorp" "DigiBank" 4900000
                "2020-06-01" ledger_invoiced)) = world ledger_invoiced.
Proof.
  apply (replay_is_rejected Invoice "MagnetoCorp" 1 "MagnetoCorp" "DigiBank"
           4900000 "2020-06-01" ledger_purchased
           (CommercialPaper.toBuffer paper_invoiced) ledger_invoiced).
  - apply exec_well_keyed, genesis_well_keyed.
  - discriminate.
  - vm_compute. reflexivity.
Defined.

(** X15.  [invoice], [issue] and [confirm] compose: submitted in this
    order on a stored entity in state PURCHASE, each by the owner the
    previous one named, they leave the entity in state CONFIRM with the
    last new owner, every other property unchanged, and touch no other
    record; amounts and dates play no part. *)
Theorem invoice_issue_confirm_chain i n o1 o2 o3 o4 a1 d1 a2 d2 a3 d3 l p :
  world l !! CommercialPaperContract.makeKey [Str i; Num n] = Some p ->
  PaperList.keyOf p = CommercialPaperContract.makeKey [Str i; Num n] ->
  get p "owner" = Str o1 ->
  get p "currentState" = Num 1 ->
  let key := CommercialPaperContract.makeKey [Str i; Num n] in
  let l' := exec [ Advance Invoice i n o1 o2 a1 d1;
                   Advance Issue i n o2 o3 a2 d2;
                   Advance Confirm i n o3 o4 a3 d3 ] l in
  exists p',
    world l' !! key = Some p' /\
    get p' "currentState" = Num 4 /\
    get p' "owner" = Str o4 /\
    same_frame p p' /\
    (forall k, k <> key -> world l' !! k = world l !! k).
Proof.
  intros Hp Hk Ho Hs key l'. subst l'. cbn [exec fold_left submit].
  set (p1 := set (set p "currentState" (Num 2)) "owner" (Str o2)).
  set (p2 := set (set p1 "currentState" (Num 3)) "owner" (Str o3)).
  set (p3 := set (set p2 "currentState" (Num 4)) "owner" (Str o4)).
  assert (K1 : PaperList.keyOf p1 = key)
    by (unfold p1; now rewrite !keyOf_set by discriminate).
  assert (K2 : PaperList.keyOf p2 = key)
    by (unfold p2; now rewrite !keyOf_set by discriminate).
  rewrite (working_advance Invoice i n o1 o2 a1 d1 l p eq_refl Hp Hk Ho Hs).
  cbn [snd]. fold key. fold p1.
  erewrite (working_advance Issue i n o2 o3 a2 d2 _ p1 eq_refl);
    [ | apply lookup_insert_eq | exact K1 | apply get_set_eq
      | unfold p1; rewrite get_set_ne by discriminate; apply get_set_eq ].
  cbn [snd world]. fold key. fold p2.
  erewrite (working_advance Confirm i n o3 o4 a3 d3 _ p2 eq_refl);
    [ | apply lookup_insert_eq | exact K2 | apply get_set_eq
      | unfold p2; rewrite get_set_ne by discriminate; apply get_set_eq ].
  cbn [snd world]. fold key. fold p3.
  exists p3. split; [apply lookup_insert_eq|].
  split; [unfold p3; rewrite get_set_ne by discriminate; apply get_set_eq|].
  split; [apply get_set_eq|].
  split.
  - intros f H1 H2. unfold p3, p2, p1.
    rewrite !get_set_ne by congruence. reflexivity.
  - intros k Hne. now rewrite !lookup_insert_ne by congruence.
Qed.

Lemma invoice_issue_confirm_chain_witness :
  let key := CommercialPaperContract.makeKey [Str "MagnetoCorp"; Num 1] in
  let l' := exec [ Advance Invoice "MagnetoCorp" 1 "MagnetoCorp" "DigiBank" 0 "";
                   Advance Issue "MagnetoCorp" 1 "DigiBank" "Hedgematic" 0 "";
                   Advance Confirm "MagnetoCorp" 1 "Hedgematic" "BigFund" 0 "" ]
              ledger_purchased in
  exists p',
    world l' !! key = Some p' /\
    get p' "currentState" = Num 4 /\
    get p' "owner" = Str "BigFund" /\
    same_frame paper_purchased p' /\
    (forall k, k <> key -> world l' !! k = world ledger_purchased !! k).
Proof.
  apply (invoice_issue_confirm_chain "MagnetoCorp" 1 "MagnetoCorp" "DigiBank"
           "Hedgematic" "BigFund" 0 "" 0 "" 0 "" ledger_purchased paper_purchased);
    reflexivity.
Defined.

(** X16.  [purchase] for a key at which nothing is stored creates the
    record: the entity made of the five fields given, in state PURCHASE
    and owned by the new owner; it returns the serialised form of that
    entity and has called, in this order, [setPurchase], [setOwner], the
    creation in the ledger and [toBuffer]. *)
Theorem purchase_creates i n o idt mdt fv l :
  world l !! CommercialPaperContract.makeKey [Str i; Num n] = None ->
  let r := CommercialPaperContract.purchase i n o idt mdt fv l in
  let p := created i n o idt mdt fv in
  fst r = Ok (CommercialPaper.toBuffer p) /\
  world (snd r) =
    <[CommercialPaperContract.makeKey [Str i; Num n] := p]> (world l) /\
  calls (snd r) = (calls l ++ purchase_calls p)%list.
Proof.
  intros Hfree r p. subst r. rewrite purchase_outcome.
  unfold PaperList.addPaper. rewrite keyOf_created. cbn [world record].
  rewrite Hfree. cbn [fst snd world calls record]. fold p.
  split; [reflexivity|]. split; [reflexivity|].
  unfold purchase_calls. now rewrite <- !app_assoc.
Qed.

Lemma purchase_creates_witness :
  let r := CommercialPaperContract.purchase "MagnetoCorp" 2 "DigiBank"
             "2020-07-31" "2021-01-31" 1000000 ledger_confirmed in
  let p := created "MagnetoCorp" 2 "DigiBank" "2020-07-31" "2021-01-31" 1000000 in
  fst r = Ok (CommercialPaper.toBuffer p) /\
  world (snd r) =
    <[CommercialPaperContract.makeKey [Str "MagnetoCorp"; Num 2] := p]>
      (world ledger_confirmed) /\
  calls (snd r) = (calls ledger_confirmed ++ purchase_calls p)%list.
Proof.
  apply (purchase_creates "MagnetoCorp" 2 "DigiBank" "2020-07-31" "2021-01-31"
           1000000 ledger_confirmed).
  vm_compute. reflexivity.
Defined.

(** X17.  End to end: whatever transactions came before on a ledger that
    started empty, the value a successful transaction returns, taken as
    JSON text, is read back by [fromBuffer] as the very record the
    transaction has stored. *)
Theorem response_decodes_to_stored_entity ts t b l' :
  submit t (exec ts genesis) = (Ok b, l') ->
  exists text p',
    stringify b = Some text /\
    CommercialPaper.fromBuffer text = Ok p' /\
    world l' !! PaperList.keyOf p' = Some p'.
Proof.
  intros H. destruct t as [i n o idt mdt fv | op i n c o a d]; simpl in H.
  - apply purchase_success in H. destruct H as (_ & -> & Hw & _).
    rewrite stringify_Buf. eexists _, (created i n o idt mdt fv).
    split; [reflexivity|].
    split; [apply fromBuffer_JSON_form, is_entity_created|].
    rewrite Hw, keyOf_created. apply lookup_insert_eq.
  - apply run_success in H.
    destruct H as (p & _ & Hp & _ & _ & _ & -> & Hw & _).
    rewrite stringify_Buf. eexists _, (advanced op o p).
    split; [reflexivity|].
    split.
    + apply fromBuffer_JSON_form, is_entity_advanced.
      eapply reachable_entities; eauto.
    + rewrite Hw, keyOf_advanced. apply lookup_insert_eq.
Qed.

Lemma response_decodes_to_stored_entity_witness :
  exists text p',
    stringify (CommercialPaper.toBuffer paper_invoiced) = Some text /\
    CommercialPaper.fromBuffer text = Ok p' /\
    world ledger_invoiced !! PaperList.keyOf p' = Some p'.
Proof.
  apply (response_decodes_to_stored_entity [trade_purchase] trade_invoice
           (CommercialPaper.toBuffer paper_invoiced) ledger_invoiced).
  vm_compute. reflexivity.
Defined.

(** X18.  An advancing operation neither creates nor removes a record: the
    keys of the world state are the same after it as before, whether it
    succeeds or throws. *)
Theorem advancing_ops_keep_the_keys op i n c o a d l k :
  is_Some (world (snd (run op i n c o a d l)) !! k) <-> is_Some (world l !! k).
Proof.
  destruct (run op i n c o a d l) as [[b|e] l'] eqn:H; cbn [snd].
  - apply run_success in H.
    destruct H as (p & _ & _ & _ & _ & Hsome & _ & Hworld & _).
    rewrite Hworld, lookup_insert. case_decide; [|reflexivity].
    subst k. split; [intros _; exact Hsome | intros _; eauto].
  - apply run_failure in H. now rewrite H.
Qed.

(** X19.  What a transaction asks of the ledger collection, whatever the
    ledger and whether the transaction succeeds or not.  [purchase] makes
    one call, the creation of the entity it has built.  An advancing
    operation reads the key of its issuer and paper number, once; it then
    updates, once and with the advanced entity, exactly when an entity was
    found there, the caller owns it, the operation is one whose state
    methods exist, and the entity is in the state the operation tests
    first or the state it leads to; in every other case the read is the
    only call. *)
Theorem one_read_then_one_write t l :
  exists cs,
    calls (snd (submit t l)) = (calls l ++ cs)%list /\
    ledger_calls cs =
    match t with
    | Purchase i n o idt mdt fv => [AddPaper (created i n o idt mdt fv)]
    | Advance op i n c o _ _ =>
        let key := CommercialPaperContract.makeKey [Str i; Num n] in
        match world l !! key with
        | Some p =>
            if clears_checks op c p
            then [GetPaper key; UpdatePaper (advanced op o p)]
            else [GetPaper key]
        | None => [GetPaper key]
        end
    end.
Proof.
  destruct t as [i n o idt mdt fv | op i n c o a d]; simpl.
  - rewrite purchase_outcome. unfold PaperList.addPaper.
    destruct (world _ !! _);
      (eexists; split; [simpl; rewrite <- ?app_assoc; simpl; reflexivity
                       | reflexivity]).
  - rewrite run_outcome. unfold outcome, clears_checks.
    destruct (world l !! _) as [p|].
    2:{ eexists; split; [simpl; reflexivity | reflexivity]. }
    cbv zeta. destruct (strict_eq (get p "owner") (Str c)); cbn [negb andb].
    2:{ eexists; split; [simpl; rewrite <- ?app_assoc; simpl; reflexivity
                        | reflexivity]. }
    destruct op; cbn [working andb];
      unfold settle, advanced, PaperList.updatePaper; cbv zeta;
      repeat match goal with
             | |- context [strict_eq (get p "currentState") ?v] =>
                 let E := fresh "E" in
                 destruct (strict_eq (get p "currentState") v) eqn:E;
                 [apply strict_eq_Num in E; rewrite ?E | ]
             end;
      cbn [orb]; rewrite ?get_set_eq; cbn [strict_eq Z.eqb Pos.eqb];
      try match goal with
          | E : get p "currentState" = Num _ |- _ => rewrite ?E
          end;
      cbn [strict_eq Z.eqb Pos.eqb Spec.predecessor Spec.target];
      repeat match goal with
             | |- context [match world ?l !! ?k with _ => _ end] =>
                 destruct (world l !! k)
             end;
      (eexists; split; [simpl; rewrite <- ?app_assoc; simpl; reflexivity
                       | reflexivity]).
Qed.

(** ** The shape of the stored entities *)

Lemma shaped_created i n o idt mdt fv : shaped (created i n o idt mdt fv).
Proof. repeat split; simpl; eauto. Qed.

Lemma shaped_advanced op o p : shaped p -> shaped (advanced op o p).
Proof.
  intros (Hk & Hc & [s Hs] & [o0 Ho]). unfold shaped.
  rewrite keys_advanced by (rewrite ?Hs, ?Ho; discriminate).
  split; [exact Hk|]. unfold advanced.
  split.
  { rewrite get_set_ne by discriminate.
    destruct (strict_eq _ _); [now rewrite get_set_ne by discriminate | exact Hc]. }
  split.
  { rewrite get_set_ne by discriminate.
    destruct (strict_eq _ _); [rewrite get_set_eq|]; eauto. }
  rewrite get_set_eq. eauto.
Qed.

Lemma exec_shaped ts l :
  (forall k p, world l !! k = Some p -> shaped p) ->
  forall k p, world (exec ts l) !! k = Some p -> shaped p.
Proof.
  revert l. induction ts as [|t ts IH]; intros l Hl; simpl; [exact Hl|].
  apply IH. intros k p Hk. apply submit_origin in Hk.
  destruct Hk as [H|[H|H]].
  - eapply Hl; eauto.
  - destruct H as (i & n & o & idt & mdt & fv & ->). apply shaped_created.
  - destruct H as (op & o & k0 & p0 & _ & Hp0 & _ & ->).
    apply shaped_advanced. eapply Hl; eauto.
Qed.

(** X20.  Every record of a ledger that started empty has the same eight
    properties in the same order (the tag, the five fields given to
    [purchase], the state and the owner), carries the tag of the class, a
    number for state and a string for owner, and is stored at the key of
    its own issuer and paper number: no transaction adds, drops or
    reorders a property. *)
Theorem reachable_shape ts k p :
  world (exec ts genesis) !! k = Some p ->
  shaped p /\ PaperList.keyOf p = k.
Proof.
  intros H. split.
  - revert k p H. apply exec_shaped. intros k p. unfold genesis. simpl.
    now rewrite lookup_empty.
  - revert H. apply exec_well_keyed, genesis_well_keyed.
Qed.

Lemma reachable_shape_witness :
  shaped paper_invoiced /\
  PaperList.keyOf paper_invoiced =
  CommercialPaperContract.makeKey [Str "MagnetoCorp"; Num 1].
Proof.
  apply (reachable_shape [trade_purchase; trade_invoice]). reflexivity.
Defined.

Lemma set_same o k : has o k = true -> set o k (get o k) = o.
Proof.
  induction o as [|[k' v] o IH]; cbn [has set get]; [discriminate|].
  destruct (String.eqb k' k); [reflexivity|]. intros H. now rewrite IH.
Qed.

Lemma set_twice o k v w : set (set o k v) k w = set o k w.
Proof.
  induction o as [|[k' v'] o IH]; cbn [set].
  - now rewrite String.eqb_refl.
  - destruct (String.eqb k' k) eqn:E; cbn [set]; rewrite E; [reflexivity|].
    now rewrite IH.
Qed.

(** X21.  Handing an entity over and back restores the ledger: when an
    entity already in the state an operation leads to is passed by that
    operation from its owner to another party and then back, the world
    state is exactly what it was before the two transactions. *)
Theorem transfer_there_and_back op i n c o a d a' d' l p :
  working op = true ->
  world l !! CommercialPaperContract.makeKey [Str i; Num n] = Some p ->
  PaperList.keyOf p = CommercialPaperContract.makeKey [Str i; Num n] ->
  get p "owner" = Str c ->
  get p "currentState" = Num (Spec.target op) ->
  world (exec [Advance op i n c o a d; Advance op i n o c a' d'] l) = world l.
Proof.
  intros Hop Hp Hk Ho Hs. cbn [exec fold_left submit].
  rewrite (working_transfer op i n c o a d l p Hop Hp Hk Ho Hs). cbn [snd].
  erewrite (working_transfer op i n o c a' d' _ (set p "owner" (Str o)) Hop);
    [ | apply lookup_insert_eq | now rewrite keyOf_set by discriminate
      | apply get_set_eq | now rewrite get_set_ne by discriminate ].
  cbn [snd world]. rewrite set_twice, <- Ho, set_same.
  - rewrite insert_insert_eq. now apply insert_id.
  - apply get_defined_has. rewrite Ho. discriminate.
Qed.

Lemma transfer_there_and_back_witness :
  world (exec [ Advance Issue "MagnetoCorp" 1 "Hedgematic" "BigFund" 0 "";
                Advance Issue "MagnetoCorp" 1 "BigFund" "Hedgematic" 0 "" ]
           ledger_issued) = world ledger_issued.
Proof.
  apply (transfer_there_and_back Issue "MagnetoCorp" 1 "Hedgematic" "BigFund"
           0 "" 0 "" ledger_issued paper_issued); reflexivity.
Defined.
